(** * Position encoders of [opennmt/layers/position.py]

    A shallow embedding of the three classes of the module
    ([PositionEncoder], [PositionEmbedder], [SinusoidalPositionEncoder])
    together with the part of the tensor runtime they call, and the
    properties of the module's specification stated over it.

    Conventions.
    - A tensor carries its shape next to its data, as the runtime's tensors
      do: the shape of an empty tensor cannot be read off nested lists.
    - Python integers are [Z]; [%] is [Z.modulo] (sign of the divisor).
    - An exception is a value of [exn]; a computation that may raise returns
      a [result].
    - Floating-point elements are an abstract type [F] with the operations
      of the class [FloatOps]; the development is generic in it, and the
      closed formula of the sinusoidal encoding is read in the instance of
      the real numbers. *)

From Stdlib Require Import String DecimalString.
From Stdlib Require Import Reals Lra.
From Stdlib Require Import ZArith Bool Lia PeanoNat List.
Import ListNotations.

Local Open Scope Z_scope.

(* ------------------------------------------------------------------ *)
(** ** Exceptions and results *)

Inductive exn : Type :=
| ValueError (msg : string)
| ZeroDivisionError
| InvalidArgumentError.

Inductive result (A : Type) : Type :=
| Ok (a : A)
| Raise (e : exn).

Arguments Ok {A} a.
Arguments Raise {A} e.

Definition bind {A B : Type} (c : result A) (k : A -> result B) : result B :=
  match c with
  | Ok a => k a
  | Raise e => Raise e
  end.

Notation "x <- c ;; k" := (bind c (fun x => k))
  (at level 61, c at next level, right associativity).

Fixpoint mapM {A B : Type} (f : A -> result B) (l : list A) : result (list B) :=
  match l with
  | [] => Ok []
  | a :: l' => b <- f a ;; bs <- mapM f l' ;; Ok (b :: bs)
  end.

Definition returns {A : Type} (c : result A) : Prop := exists a, c = Ok a.
Definition raises {A : Type} (c : result A) : Prop := exists e, c = Raise e.

(* ------------------------------------------------------------------ *)
(** ** Tensors *)

Record Tensor2 (A : Type) : Type := mkTensor2 {
  shape2 : nat * nat;
  data2 : list (list A)
}.

Record Tensor3 (A : Type) : Type := mkTensor3 {
  shape3 : nat * nat * nat;
  data3 : list (list (list A))
}.

Arguments mkTensor2 {A} shape2 data2.
Arguments shape2 {A} t.
Arguments data2 {A} t.
Arguments mkTensor3 {A} shape3 data3.
Arguments shape3 {A} t.
Arguments data3 {A} t.

Definition dim0 {A} (t : Tensor3 A) : nat := fst (fst (shape3 t)).
Definition dim1 {A} (t : Tensor3 A) : nat := snd (fst (shape3 t)).
Definition dim2 {A} (t : Tensor3 A) : nat := snd (shape3 t).

(** The data agrees with the shape. *)
Definition wf2 {A} (t : Tensor2 A) : Prop :=
  length (data2 t) = fst (shape2 t) /\
  Forall (fun row => length row = snd (shape2 t)) (data2 t).

Definition wf3 {A} (t : Tensor3 A) : Prop :=
  length (data3 t) = dim0 t /\
  Forall (fun mat =>
            length mat = dim1 t /\
            Forall (fun row => length row = dim2 t) mat) (data3 t).

Definition get2 {A} (t : Tensor2 A) (b i : nat) : option A :=
  match nth_error (data2 t) b with
  | Some row => nth_error row i
  | None => None
  end.

Definition get3 {A} (t : Tensor3 A) (b i k : nat) : option A :=
  match nth_error (data3 t) b with
  | Some mat =>
      match nth_error mat i with
      | Some row => nth_error row k
      | None => None
      end
  | None => None
  end.

(** A Python list of 1-D sequences of one length, converted to a tensor:
    [[positions]] has shape [[1, len(positions)]]. *)
Definition pylist1 {A} (row : list A) : Tensor2 A :=
  mkTensor2 (1%nat, length row) [row].

(** Element-wise combination of two lists, up to the shorter one. *)
Fixpoint map2 {A B C} (f : A -> B -> C) (l1 : list A) (l2 : list B) : list C :=
  match l1, l2 with
  | a :: l1', b :: l2' => f a b :: map2 f l1' l2'
  | _, _ => []
  end.

(* ------------------------------------------------------------------ *)
(** ** The tensor runtime: shape and index operations *)

(** [tf.range(n)] *)
Definition tf_range (n : nat) : list Z := map Z.of_nat (seq 0 n).

(** [tf.minimum(t, m)] with a scalar [m]. *)
Definition tf_minimum (t : Tensor2 Z) (m : Z) : Tensor2 Z :=
  mkTensor2 (shape2 t) (map (map (fun p => Z.min p m)) (data2 t)).

(** [tf.cast] on a rank-2 and on a rank-3 tensor. *)
Definition tf_cast2 {A B} (f : A -> B) (t : Tensor2 A) : Tensor2 B :=
  mkTensor2 (shape2 t) (map (map f) (data2 t)).

Definition tf_map3 {A B} (f : A -> B) (t : Tensor3 A) : Tensor3 B :=
  mkTensor3 (shape3 t) (map (map (map f)) (data3 t)).

(** [tf.tile(v, [n])] on a vector. *)
Definition tf_tile1 {A} (v : list A) (n : nat) : list A := concat (repeat v n).

Fixpoint chunk {A} (cols rows : nat) (l : list A) : list (list A) :=
  match rows with
  | O => []
  | S r => firstn cols l :: chunk cols r (skipn cols l)
  end.

(** [tf.reshape(v, [rows, -1])] on a vector: the missing dimension is
    inferred from the number of elements; it cannot be inferred when
    [rows] is zero, and the elements must fill the rows. *)
Definition tf_reshape_rows {A} (v : list A) (rows : nat) : result (Tensor2 A) :=
  match rows with
  | O => Raise InvalidArgumentError
  | S _ =>
      let cols := (length v / rows)%nat in
      if (cols * rows =? length v)%nat
      then Ok (mkTensor2 (rows, cols) (chunk cols rows v))
      else Raise InvalidArgumentError
  end.

(** [tf.expand_dims(t, -1)]: [[B, T]] to [[B, T, 1]]. *)
Definition tf_expand_dims_last {A} (t : Tensor2 A) : Tensor3 A :=
  mkTensor3 (fst (shape2 t), snd (shape2 t), 1%nat)
            (map (map (fun x => [x])) (data2 t)).

(** [tf.expand_dims(t, 1)]: [[B, H]] to [[B, 1, H]]. *)
Definition tf_expand_dims_1 {A} (t : Tensor2 A) : Tensor3 A :=
  mkTensor3 (fst (shape2 t), 1%nat, snd (shape2 t))
            (map (fun row => [row]) (data2 t)).

(** Broadcasting of one axis: equal sizes, or one of them is 1. *)
Definition broadcast_dim (a b : nat) : option nat :=
  if (a =? b)%nat then Some a
  else if (a =? 1)%nat then Some b
  else if (b =? 1)%nat then Some a
  else None.

(** An axis of size 1 is repeated to the broadcast size. *)
Definition stretch {A} (n : nat) (l : list A) : list A :=
  match l with
  | [x] => repeat x n
  | _ => l
  end.

Definition bzip {A B C} (f : A -> B -> C) (n : nat) (l1 : list A) (l2 : list B)
  : list C :=
  map2 f (stretch n l1) (stretch n l2).

(** An element-wise binary operation on rank-3 tensors, with broadcasting. *)
Definition tf_broadcast3 {A} (f : A -> A -> A) (x y : Tensor3 A)
  : result (Tensor3 A) :=
  match broadcast_dim (dim0 x) (dim0 y),
        broadcast_dim (dim1 x) (dim1 y),
        broadcast_dim (dim2 x) (dim2 y) with
  | Some b, Some t, Some d =>
      Ok (mkTensor3 (b, t, d)
            (bzip (bzip (bzip f d) t) b (data3 x) (data3 y)))
  | _, _, _ => Raise InvalidArgumentError
  end.

(** [tf.concat([x, y], axis=2)] *)
Definition tf_concat_axis2 {A} (x y : Tensor3 A) : result (Tensor3 A) :=
  if ((dim0 x =? dim0 y) && (dim1 x =? dim1 y))%nat
  then Ok (mkTensor3 (dim0 x, dim1 x, (dim2 x + dim2 y)%nat)
             (map2 (map2 (@app A)) (data3 x) (data3 y)))
  else Raise InvalidArgumentError.

(** [tf.tile(t, [n, 1, 1])] *)
Definition tf_tile_batch {A} (t : Tensor3 A) (n : nat) : Tensor3 A :=
  mkTensor3 ((n * dim0 t)%nat, dim1 t, dim2 t) (concat (repeat (data3 t) n)).

(** One row of [tf.nn.embedding_lookup]: an index outside the table is
    refused (the behaviour of the runtime on CPU). *)
Definition lookup_row {A} (table : Tensor2 A) (i : Z) : result (list A) :=
  if (0 <=? i) && (i <? Z.of_nat (fst (shape2 table)))
  then match nth_error (data2 table) (Z.to_nat i) with
       | Some row => Ok row
       | None => Raise InvalidArgumentError
       end
  else Raise InvalidArgumentError.

(** [tf.nn.embedding_lookup(params, ids)]; [params] is [None] before the
    layer is built. *)
Definition tf_nn_embedding_lookup {A} (params : option (Tensor2 A)) (ids : Tensor2 Z)
  : result (Tensor3 A) :=
  match params with
  | None => Raise (ValueError "Need at least one param")
  | Some table =>
      rows <- mapM (mapM (lookup_row table)) (data2 ids) ;;
      Ok (mkTensor3 (fst (shape2 ids), snd (shape2 ids), snd (shape2 table)) rows)
  end.

(* ------------------------------------------------------------------ *)
(** ** Floating-point elements *)

(** The element types a layer can work in ([self.dtype]). *)
Inductive DType : Type := float16 | float32 | float64.

(** The scalar operations the module uses, on an element type [F]:
    conversion from an integer, [math.log], and the arithmetic and
    transcendental functions of the runtime. *)
Class FloatOps (F : Type) : Type := {
  of_int : Z -> F;
  math_log : Z -> F;
  fneg : F -> F;
  fadd : F -> F -> F;
  fmul : F -> F -> F;
  fdiv : F -> F -> F;
  fexp : F -> F;
  fsin : F -> F;
  fcos : F -> F;
  fcast : DType -> F -> F
}.

(** The real numbers: every operation is exact and a cast changes nothing. *)
#[export] Instance RealOps : FloatOps R := {
  of_int := IZR;
  math_log := fun z => ln (IZR z);
  fneg := Ropp;
  fadd := Rplus;
  fmul := Rmult;
  fdiv := Rdiv;
  fexp := exp;
  fsin := sin;
  fcos := cos;
  fcast := fun _ x => x
}.

(** ["%d" % z] *)
Definition format_d (z : Z) : string := NilZero.string_of_int (Z.to_int z).

Section Layers.

Context {F : Type} {ops : FloatOps F}.

(** Python's [x / d] for a float [x] and a number [d]: a zero divisor
    raises. *)
Definition py_div (x : F) (d : Z) : result F :=
  if d =? 0 then Raise ZeroDivisionError else Ok (fdiv x (of_int d)).

(** [np.arange(n, dtype=np.float32)]: empty when [n <= 0]. *)
Definition np_arange (n : Z) : list F :=
  map (fun k => of_int (Z.of_nat k)) (seq 0 (Z.to_nat n)).

(** A reducer merges a list of tensors into one. *)
Definition Reducer : Type := list (Tensor3 F) -> result (Tensor3 F).

Definition shape3_eqb (s1 s2 : nat * nat * nat) : bool :=
  ((fst (fst s1) =? fst (fst s2)) && (snd (fst s1) =? snd (fst s2))
   && (snd s1 =? snd s2))%nat.

(** Modelled from the spec: [opennmt.layers.reducer.SumReducer] is not part
    of the sources. Section 4.4: the merger takes an ordered list of tensors
    with identical leading dimensions; the default policy is the
    element-wise sum, which requires an identical trailing dimension too and
    returns a tensor of that same shape. *)
Definition add3 (x y : Tensor3 F) : result (Tensor3 F) :=
  if shape3_eqb (shape3 x) (shape3 y)
  then Ok (mkTensor3 (shape3 x) (map2 (map2 (map2 fadd)) (data3 x) (data3 y)))
  else Raise InvalidArgumentError.

(** Modelled from the spec: the sum merger of section 4.4, over a list. *)
Definition SumReducer : Reducer := fun inputs =>
  match inputs with
  | [] => Raise (ValueError "inputs must be a list of at least one tensor")
  | x :: rest => fold_left (fun acc y => a <- acc ;; add3 a y) rest (Ok x)
  end.

(* ------------------------------------------------------------------ *)
(** ** [class PositionEncoder]

    The base class holds the reducer and leaves [encode] abstract; a
    strategy is an instance of the class below. *)

Class PositionEncoder (S : Type) : Type := {
  reducer : S -> Reducer;
  encode : S -> Tensor2 Z -> Z -> result (Tensor3 F)
}.

(** The positions of [call], as [encode] receives them ([[positions]]):
    [tf.range(timesteps) + 1] when no position is given, the one given
    position otherwise. *)
Definition call_positions (timesteps : nat) (position : option Z) : Tensor2 Z :=
  let positions :=
    match position with
    | None => map (fun i => i + 1) (tf_range timesteps)
    | Some p => [p]
    end in
  pylist1 positions.

(** [PositionEncoder.call] *)
Definition call {S : Type} `{PositionEncoder S}
    (self : S) (inputs : Tensor3 F) (position : option Z) : result (Tensor3 F) :=
  let batch_size := dim0 inputs in
  let timesteps := dim1 inputs in
  let input_dim := Z.of_nat (dim2 inputs) in
  position_encoding <- encode self (call_positions timesteps position) input_dim ;;
  let position_encoding := tf_tile_batch position_encoding batch_size in
  reducer self [inputs; position_encoding].

(** The contract of the abstract [encode]: positions of shape [[B, T]] give
    an encoding whose leading dimensions are [[B, T]]. *)
Definition keeps_leading_dims {S : Type} `{PositionEncoder S} (self : S) : Prop :=
  forall positions depth out,
    encode self positions depth = Ok out -> (dim0 out, dim1 out) = shape2 positions.

(* ------------------------------------------------------------------ *)
(** ** [class PositionEmbedder] *)

Record PositionEmbedder : Type := mkPositionEmbedder {
  pe_reducer : Reducer;
  maximum_position : Z;
  embeddings : option (Tensor2 F)
}.

(** [PositionEmbedder.__init__]: no table yet. *)
Definition PositionEmbedder_init (maximum_position : Z) (reducer : Reducer)
  : PositionEmbedder :=
  mkPositionEmbedder reducer maximum_position None.

(** [self.add_weight(name, shape)]: a variable of the given shape, filled by
    the initializer; a negative dimension is refused. *)
Definition add_weight (initializer : nat -> nat -> F) (rows : Z) (cols : nat)
  : result (Tensor2 F) :=
  if rows <? 0 then Raise (ValueError "negative dimension")
  else Ok (mkTensor2 (Z.to_nat rows, cols)
             (map (fun i => map (initializer i) (seq 0 cols))
                  (seq 0 (Z.to_nat rows)))).

(** [PositionEmbedder.build] *)
Definition PositionEmbedder_build (self : PositionEmbedder)
    (initializer : nat -> nat -> F) (input_shape : nat * nat * nat)
  : result PositionEmbedder :=
  let input_depth := snd input_shape in
  w <- add_weight initializer (maximum_position self + 1) input_depth ;;
  Ok (mkPositionEmbedder (pe_reducer self) (maximum_position self) (Some w)).

(** [PositionEmbedder.encode] *)
Definition PositionEmbedder_encode (self : PositionEmbedder)
    (positions : Tensor2 Z) (depth : Z) : result (Tensor3 F) :=
  let positions := tf_minimum positions (maximum_position self) in
  tf_nn_embedding_lookup (embeddings self) positions.

#[export] Instance PositionEmbedder_PositionEncoder : PositionEncoder PositionEmbedder := {
  reducer := pe_reducer;
  encode := PositionEmbedder_encode
}.

(* ------------------------------------------------------------------ *)
(** ** [class SinusoidalPositionEncoder] *)

Record SinusoidalPositionEncoder : Type := mkSinusoidalPositionEncoder {
  se_reducer : Reducer;
  dtype : DType
}.

Definition depth_error (depth : Z) : exn :=
  ValueError ("SinusoidalPositionEncoder expects the depth to be divisble by 2 but got "
              ++ format_d depth).

(** [SinusoidalPositionEncoder.encode]. Once the depth is known to be even,
    [depth / 2] is the same integer under Python's floor and true division,
    so the half-depth is computed in [Z]. The steps follow the statements of
    the method in their order: the evenness test, the division of the
    log-increment, the inverse timescales tiled and reshaped to one row per
    batch entry, the broadcast product, and the two halves joined on the
    last axis. *)
Definition SinusoidalPositionEncoder_encode (self : SinusoidalPositionEncoder)
    (positions : Tensor2 Z) (depth : Z) : result (Tensor3 F) :=
  if negb (depth mod 2 =? 0) then Raise (depth_error depth)
  else
    let batch_size := fst (shape2 positions) in
    let positions := tf_cast2 of_int positions in
    log_timescale_increment <- py_div (math_log 10000) (depth / 2 - 1) ;;
    let inv_timescales :=
      map fexp (map (fun k => fmul k (fneg log_timescale_increment))
                    (np_arange (depth / 2))) in
    inv_timescales <- tf_reshape_rows (tf_tile1 inv_timescales batch_size) batch_size ;;
    scaled_time <- tf_broadcast3 fmul (tf_expand_dims_last positions)
                                      (tf_expand_dims_1 inv_timescales) ;;
    encoding <- tf_concat_axis2 (tf_map3 fsin scaled_time) (tf_map3 fcos scaled_time) ;;
    Ok (tf_map3 (fcast (dtype self)) encoding).

#[export] Instance SinusoidalPositionEncoder_PositionEncoder
  : PositionEncoder SinusoidalPositionEncoder := {
  reducer := se_reducer;
  encode := SinusoidalPositionEncoder_encode
}.

(** The value of channel [k] of [inv_timescales], with the operations in
    the order in which the code applies them. *)
Definition inv_timescale (depth : Z) (k : nat) : F :=
  fexp (fmul (of_int (Z.of_nat k))
             (fneg (fdiv (math_log 10000) (of_int (depth / 2 - 1))))).

(** The encoding of one position: the sine channels, then the cosine
    channels. *)
Definition encoding_row (dt : DType) (depth : Z) (p : Z) : list F :=
  let half := Z.to_nat (depth / 2) in
  map (fun k => fcast dt (fsin (fmul (of_int p) (inv_timescale depth k)))) (seq 0 half)
  ++ map (fun k => fcast dt (fcos (fmul (of_int p) (inv_timescale depth k)))) (seq 0 half).

End Layers.

(* ------------------------------------------------------------------ *)
(** ** Concrete layers and inputs, over the real numbers *)

(** A sinusoidal encoder with the default reducer and element type. *)
Definition example_sinusoidal : @SinusoidalPositionEncoder R :=
  mkSinusoidalPositionEncoder SumReducer float32.

(** The table values of the embedder below: row [i], column [j]. *)
Definition example_initializer : nat -> nat -> R :=
  fun i j => IZR (Z.of_nat (10 * i + j)).

(** An embedder with maximum position 2, built for depth 2. *)
Definition example_embedder : @PositionEmbedder R :=
  mkPositionEmbedder SumReducer 2
    (Some (mkTensor2 (3%nat, 2%nat) [[0; 1]; [10; 11]; [20; 21]]%R)).

(** Inputs of shape [[2, 2, 4]] and of shape [[1, 3, 2]]. *)
Definition example_inputs : Tensor3 R :=
  mkTensor3 (2%nat, 2%nat, 4%nat)
    [[[1; 2; 3; 4]; [5; 6; 7; 8]]; [[9; 10; 11; 12]; [13; 14; 15; 16]]]%R.

Definition example_inputs_three_steps : Tensor3 R :=
  mkTensor3 (1%nat, 3%nat, 2%nat) [[[1; 2]; [3; 4]; [5; 6]]]%R.

(* ------------------------------------------------------------------ *)
(** ** Readings of a result *)

(** The row of channels of batch entry [b] at timestep [i]. *)
Definition row3 {A} (t : Tensor3 A) (b i : nat) : option (list A) :=
  match nth_error (data3 t) b with
  | Some mat => nth_error mat i
  | None => None
  end.

(** The row of [table] that an embedder of maximum position [M] looks up
    for the position [p]. *)
Definition table_row {A} (table : Tensor2 A) (M p : Z) : list A :=
  nth (Z.to_nat (Z.min p M)) (data2 table) [].

(** The positions [1, ..., T] of a sequence of [T] timesteps. *)
Definition default_positions (T : nat) : list Z := map Z.of_nat (seq 1 T).

(* ================================================================== *)
(** * Properties *)

(** ** Lists *)

Section ListFacts.

Context {A B C : Type}.

Lemma map2_length (f : A -> B -> C) (l1 : list A) (l2 : list B) :
  length (map2 f l1 l2) = Nat.min (length l1) (length l2).
Proof.
  revert l2. induction l1 as [|a l1 IH]; intros [|b l2]; simpl; auto.
Qed.

Lemma map2_repeat_r (f : A -> B -> C) (y : B) (l : list A) :
  map2 f l (repeat y (length l)) = map (fun a => f a y) l.
Proof.
  induction l as [|a l IH]; simpl; [reflexivity|]. now f_equal.
Qed.

Lemma map2_repeat_l (f : A -> B -> C) (x : A) (l : list B) :
  map2 f (repeat x (length l)) l = map (f x) l.
Proof.
  induction l as [|b l IH]; simpl; [reflexivity|]. now f_equal.
Qed.

Lemma map2_nth_error (f : A -> B -> C) (l1 : list A) (l2 : list B) n a b :
  nth_error l1 n = Some a -> nth_error l2 n = Some b ->
  nth_error (map2 f l1 l2) n = Some (f a b).
Proof.
  revert l2 n. induction l1 as [|x l1 IH]; intros [|y l2] [|n]; simpl;
    try discriminate.
  - intros [= ->] [= ->]. reflexivity.
  - intros H1 H2. now apply IH.
Qed.

Lemma stretch_length (n : nat) (l : list A) : length l = n -> stretch n l = l.
Proof.
  destruct l as [|x [|y l]]; simpl; intros <-; reflexivity.
Qed.

Lemma chunk_tile (v : list A) (n : nat) :
  chunk (length v) n (tf_tile1 v n) = repeat v n.
Proof.
  unfold tf_tile1. induction n as [|n IH]; simpl; [reflexivity|].
  rewrite firstn_app, Nat.sub_diag, firstn_all, firstn_O, app_nil_r.
  rewrite skipn_app, Nat.sub_diag, skipn_all, skipn_O. simpl.
  now rewrite IH.
Qed.

Lemma tile1_length (v : list A) (n : nat) :
  length (tf_tile1 v n) = (n * length v)%nat.
Proof.
  unfold tf_tile1. induction n as [|n IH]; simpl; [reflexivity|].
  rewrite length_app. lia.
Qed.

Lemma nth_error_tile (l : list A) (n b : nat) :
  (b < n)%nat -> l <> [] -> length l = 1%nat ->
  nth_error (concat (repeat l n)) b = nth_error l 0.
Proof.
  intros Hb _ Hl. destruct l as [|x [|y l]]; try discriminate.
  clear Hl. revert b Hb. induction n as [|n IH]; intros b Hb; [lia|].
  destruct b as [|b]; simpl; [reflexivity|].
  apply IH. lia.
Qed.

Lemma mapM_ok (f : A -> result B) (g : A -> B) (l : list A) :
  Forall (fun a => f a = Ok (g a)) l -> mapM f l = Ok (map g l).
Proof.
  induction 1 as [|a l Ha _ IH]; simpl; [reflexivity|].
  now rewrite Ha, IH.
Qed.

Lemma mapM_inv (f : A -> result B) (l : list A) (out : list B) :
  mapM f l = Ok out -> Forall2 (fun a b => f a = Ok b) l out.
Proof.
  revert out. induction l as [|a l IH]; simpl; intros out.
  - intros [= <-]. constructor.
  - destruct (f a) as [b|e] eqn:Ha; simpl; [|discriminate].
    destruct (mapM f l) as [bs|e] eqn:Hl; simpl; [|discriminate].
    intros [= <-]. constructor; auto.
Qed.

End ListFacts.

Lemma map2_diag {A B C D : Type} (f : B -> C -> D) (g : A -> B) (h : A -> C)
    (l : list A) :
  map2 f (map g l) (map h l) = map (fun a => f (g a) (h a)) l.
Proof.
  induction l as [|a l IH]; simpl; [reflexivity|]. now f_equal.
Qed.

Lemma reshape_tile {A : Type} (v : list A) (n : nat) :
  (1 <= n)%nat ->
  tf_reshape_rows (tf_tile1 v n) n = Ok (mkTensor2 (n, length v) (repeat v n)).
Proof.
  intros Hn. unfold tf_reshape_rows.
  rewrite tile1_length, (Nat.mul_comm n), Nat.div_mul by lia.
  rewrite Nat.eqb_refl, chunk_tile.
  destruct n; [lia | reflexivity].
Qed.

(* ------------------------------------------------------------------ *)
(** ** The tensor runtime *)

Section RuntimeFacts.

Context {A : Type}.

Lemma broadcast_dim_same (n : nat) : broadcast_dim n n = Some n.
Proof. unfold broadcast_dim. now rewrite Nat.eqb_refl. Qed.

Lemma broadcast_dim_1_r (n : nat) : broadcast_dim n 1 = Some n.
Proof.
  unfold broadcast_dim. destruct (Nat.eqb_spec n 1) as [->|_]; [reflexivity|].
  reflexivity.
Qed.

Lemma broadcast_dim_1_l (n : nat) : broadcast_dim 1 n = Some n.
Proof.
  unfold broadcast_dim. destruct (Nat.eqb_spec 1 n) as [<-|_]; reflexivity.
Qed.

(** The product of a column of [T] values with a row of [H] values, both
    seen through [tf.expand_dims], is the table of all the products. *)
Lemma bzip_outer (f : A -> A -> A) (T H : nat) (col row : list A) :
  length col = T -> length row = H ->
  bzip (bzip f H) T (map (fun x => [x]) col) [row] = map (fun p => map (f p) row) col.
Proof.
  intros HT HH. unfold bzip at 1.
  rewrite (stretch_length T) by now rewrite length_map.
  simpl stretch. rewrite <- HT, <- (length_map (fun x => [x]) col).
  rewrite map2_repeat_r, map_map.
  apply map_ext. intros p. unfold bzip.
  rewrite (stretch_length H row HH). simpl stretch.
  rewrite <- HH. apply map2_repeat_l.
Qed.

Lemma bzip_outer_batch (f : A -> A -> A) (B T H : nat) (X : list (list A))
    (row : list A) :
  length X = B -> Forall (fun col => length col = T) X -> length row = H ->
  bzip (bzip (bzip f H) T) B (map (map (fun x => [x])) X)
       (map (fun r => [r]) (repeat row B))
  = map (map (fun p => map (f p) row)) X.
Proof.
  intros HB HT HH. unfold bzip at 1.
  rewrite !stretch_length by now rewrite ?length_map, ?repeat_length.
  rewrite map_repeat, <- HB, <- (length_map (map (fun x => [x])) X).
  rewrite map2_repeat_r, map_map.
  apply map_ext_Forall. revert HT. apply Forall_impl.
  intros col Hcol. now apply bzip_outer.
Qed.

Lemma tile_batch_row (t : Tensor3 A) (n b : nat) :
  length (data3 t) = 1%nat -> (b < n)%nat ->
  nth_error (data3 (tf_tile_batch t n)) b = nth_error (data3 t) 0.
Proof.
  intros Hl Hb. simpl. apply nth_error_tile; auto.
  intros E. now rewrite E in Hl.
Qed.

End RuntimeFacts.

(* ------------------------------------------------------------------ *)
(** ** [SinusoidalPositionEncoder.encode] *)

Section SinusoidalFacts.

Context {F : Type} {ops : FloatOps F}.

Implicit Types (self : @SinusoidalPositionEncoder F) (positions : Tensor2 Z).

Lemma inv_timescales_closed (depth : Z) :
  map fexp (map (fun k => fmul k (fneg (fdiv (math_log 10000) (of_int (depth / 2 - 1)))))
                (np_arange (depth / 2)))
  = map (inv_timescale depth) (seq 0 (Z.to_nat (depth / 2))).
Proof. unfold np_arange. now rewrite !map_map. Qed.

(** On a non-empty batch and an even depth other than 2, [encode] returns
    the rows [encoding_row] of the positions. *)
Lemma sinusoidal_encode_closed self positions (depth : Z) :
  wf2 positions -> (1 <= fst (shape2 positions))%nat ->
  depth mod 2 = 0 -> depth / 2 <> 1 ->
  SinusoidalPositionEncoder_encode self positions depth
  = Ok (mkTensor3
          (fst (shape2 positions), snd (shape2 positions),
           (Z.to_nat (depth / 2) + Z.to_nat (depth / 2))%nat)
          (map (map (encoding_row (dtype self) depth)) (data2 positions))).
Proof.
  intros [Hlen Hrows] HB Heven Hhalf.
  unfold SinusoidalPositionEncoder_encode.
  rewrite Heven. simpl negb. cbv iota.
  unfold py_div. destruct (Z.eqb_spec (depth / 2 - 1) 0) as [E|_]; [lia|].
  simpl bind. rewrite inv_timescales_closed.
  set (inv := map (inv_timescale depth) (seq 0 (Z.to_nat (depth / 2)))).
  assert (Hinv : length inv = Z.to_nat (depth / 2))
    by (unfold inv; now rewrite length_map, length_seq).
  rewrite reshape_tile by exact HB. simpl bind.
  unfold tf_broadcast3, dim0, dim1, dim2. simpl shape3. simpl fst. simpl snd.
  rewrite broadcast_dim_same, broadcast_dim_1_r, broadcast_dim_1_l.
  simpl data3. simpl data2.
  rewrite (bzip_outer_batch fmul (fst (shape2 positions)) (snd (shape2 positions))
             (length inv)).
  2: now rewrite length_map.
  2: { rewrite Forall_map. revert Hrows. apply Forall_impl.
       intros row Hrow. now rewrite length_map. }
  2: reflexivity.
  rewrite Hinv. simpl bind. unfold tf_concat_axis2, tf_map3, dim0, dim1, dim2. simpl.
  rewrite !Nat.eqb_refl. simpl. do 2 f_equal.
  rewrite !map_map. rewrite map2_diag. rewrite map_map.
  apply map_ext. intros row.
  rewrite !map_map. rewrite map2_diag. rewrite !map_map.
  apply map_ext. intros p.
  unfold encoding_row. fold inv. rewrite map_app. unfold inv. now rewrite !map_map.
Qed.

(** Channel [k] of the closed form, in the sine half and in the cosine
    half. *)
Lemma encoding_row_sin (dt : DType) (depth p : Z) (k : nat) :
  (k < Z.to_nat (depth / 2))%nat ->
  nth_error (encoding_row dt depth p) k
  = Some (fcast dt (fsin (fmul (of_int p) (inv_timescale depth k)))).
Proof.
  intros Hk. unfold encoding_row.
  rewrite nth_error_app1 by now rewrite length_map, length_seq.
  rewrite nth_error_map, nth_error_seq.
  destruct (Nat.ltb_spec k (Z.to_nat (depth / 2))); [reflexivity | lia].
Qed.

Lemma encoding_row_cos (dt : DType) (depth p : Z) (k : nat) :
  (k < Z.to_nat (depth / 2))%nat ->
  nth_error (encoding_row dt depth p) (Z.to_nat (depth / 2) + k)
  = Some (fcast dt (fcos (fmul (of_int p) (inv_timescale depth k)))).
Proof.
  intros Hk. unfold encoding_row.
  rewrite nth_error_app2 by (rewrite length_map, length_seq; lia).
  rewrite length_map, length_seq.
  replace (Z.to_nat (depth / 2) + k - Z.to_nat (depth / 2))%nat with k by lia.
  rewrite nth_error_map, nth_error_seq.
  destruct (Nat.ltb_spec k (Z.to_nat (depth / 2))); [reflexivity | lia].
Qed.

Lemma encoding_row_length (dt : DType) (depth p : Z) :
  length (encoding_row dt depth p) = (Z.to_nat (depth / 2) + Z.to_nat (depth / 2))%nat.
Proof. unfold encoding_row. now rewrite length_app, !length_map, length_seq. Qed.

End SinusoidalFacts.

(* ------------------------------------------------------------------ *)
(** ** Claims on [SinusoidalPositionEncoder.encode] *)

Lemma even_double (D : Z) : D mod 2 = 0 -> D = 2 * (D / 2).
Proof. intros Heven. apply Z.div_exact; [lia | exact Heven]. Qed.

Lemma IZR_half (D : Z) : D mod 2 = 0 -> (IZR (D / 2 - 1) = IZR D / 2 - 1)%R.
Proof.
  intros Heven. rewrite minus_IZR.
  rewrite (even_double D Heven) at 2. rewrite mult_IZR. lra.
Qed.

(** In the real numbers, the code's [exp(k * -(ln 10000 / (D/2 - 1)))] is
    [exp(-k * ln 10000 / (D/2 - 1))]. *)
Lemma inv_timescale_real (D : Z) (k : nat) :
  D mod 2 = 0 -> 2 <= D / 2 ->
  inv_timescale D k = exp (- INR k * ln 10000 / (IZR D / 2 - 1))%R.
Proof.
  intros Heven Hhalf. unfold inv_timescale. simpl.
  rewrite IZR_half by exact Heven. rewrite <- INR_IZR_INZ. f_equal.
  assert (Hd : (IZR D / 2 - 1 <> 0)%R).
  { rewrite <- IZR_half by exact Heven. apply not_0_IZR. lia. }
  field. intros E. apply Hd. lra.
Qed.

(** C1. For a batch of [B >= 1] position sequences of length [T] and an even
    depth [D] with [D/2 >= 2], [encode] returns a tensor of shape [[B, T, D]]
    whose channel [k] of the first [D/2] channels is
    [sin (p * exp (-k * ln 10000 / (D/2 - 1)))] and whose channel [k] of the
    last [D/2] channels is the cosine of the same angle, for the position [p]
    of every cell: the sine half followed by the cosine half. *)
Theorem sinusoidal_encode_sin_cos_halves
    (self : @SinusoidalPositionEncoder R) (positions : Tensor2 Z)
    (B T : nat) (D : Z) :
  wf2 positions -> shape2 positions = (B, T) -> (1 <= B)%nat ->
  D mod 2 = 0 -> 2 <= D / 2 ->
  exists out,
    SinusoidalPositionEncoder_encode self positions D = Ok out /\
    shape3 out = (B, T, Z.to_nat D) /\ wf3 out /\
    forall b t p, get2 positions b t = Some p ->
    forall k, (k < Z.to_nat (D / 2))%nat ->
      get3 out b t k
      = Some (sin (IZR p * exp (- INR k * ln 10000 / (IZR D / 2 - 1))))%R /\
      get3 out b t (Z.to_nat (D / 2) + k)
      = Some (cos (IZR p * exp (- INR k * ln 10000 / (IZR D / 2 - 1))))%R.
Proof.
  intros Hwf Hshape HB Heven Hhalf.
  assert (HD : (Z.to_nat (D / 2) + Z.to_nat (D / 2))%nat = Z.to_nat D).
  { rewrite <- Z2Nat.inj_add by lia. f_equal.
    pose proof (even_double D Heven). lia. }
  eexists. split.
  { apply sinusoidal_encode_closed; auto.
    - rewrite Hshape. exact HB.
    - lia. }
  rewrite Hshape, HD. simpl fst. simpl snd.
  destruct Hwf as [Hlen Hrows]. rewrite Hshape in Hlen, Hrows. simpl in Hlen, Hrows.
  split; [reflexivity|]. split.
  - split; unfold dim0, dim1, dim2; simpl.
    + now rewrite length_map.
    + rewrite Forall_map. revert Hrows. apply Forall_impl. intros row Hrow.
      split; [now rewrite length_map|].
      rewrite Forall_map. apply Forall_forall. intros p _.
      now rewrite encoding_row_length.
  - intros b t p Hp k Hk. unfold get2 in Hp. unfold get3. simpl data3.
    rewrite nth_error_map.
    destruct (nth_error (data2 positions) b) as [row|]; [|discriminate]. simpl.
    rewrite nth_error_map, Hp. simpl.
    rewrite encoding_row_sin, encoding_row_cos by exact Hk.
    rewrite inv_timescale_real by assumption. split; reflexivity.
Qed.

Lemma sinusoidal_encode_sin_cos_halves_witness :
  exists out,
    SinusoidalPositionEncoder_encode example_sinusoidal
      (mkTensor2 (2%nat, 3%nat) [[1; 2; 3]; [4; 5; 6]]) 8 = Ok out /\
    shape3 out = (2%nat, 3%nat, 8%nat) /\
    get3 out 1 2 3 = Some (sin (6 * exp (- INR 3 * ln 10000 / (8 / 2 - 1))))%R /\
    get3 out 1 2 7 = Some (cos (6 * exp (- INR 3 * ln 10000 / (8 / 2 - 1))))%R.
Proof.
  destruct (sinusoidal_encode_sin_cos_halves example_sinusoidal
              (mkTensor2 (2%nat, 3%nat) [[1; 2; 3]; [4; 5; 6]]) 2 3 8)
    as (out & Hout & Hshape & _ & Hch).
  - split; [reflexivity|]. repeat constructor.
  - reflexivity.
  - lia.
  - reflexivity.
  - vm_compute. discriminate.
  - exists out. split; [exact Hout|]. split; [exact Hshape|].
    apply (Hch 1%nat 2%nat 6 eq_refl 3%nat). vm_compute. lia.
Defined.

Section SinusoidalClaims.

Context {F : Type} {ops : FloatOps F}.

Implicit Types (self : @SinusoidalPositionEncoder F) (positions : Tensor2 Z).

(** C2, as the code has it. With depth 2 no check of the half-depth is made:
    the depth passes the evenness test and the division of the log-increment
    raises [ZeroDivisionError]. The call returns no value, so no NaN or Inf
    is produced, and the exception is not the [ValueError] of a rejected
    configuration. *)
Theorem sinusoidal_depth_two_zero_division self positions :
  SinusoidalPositionEncoder_encode self positions 2 = Raise ZeroDivisionError.
Proof.
  unfold SinusoidalPositionEncoder_encode.
  change (2 mod 2 =? 0) with true. cbv beta iota. simpl negb. cbv iota.
  change (2 / 2 - 1) with 0. unfold py_div. simpl Z.eqb. cbv iota.
  reflexivity.
Qed.

(** C5. For every odd depth [encode] raises the [ValueError] that names the
    depth, and returns no value. *)
Theorem sinusoidal_odd_depth_value_error self positions (depth : Z) :
  Z.odd depth = true ->
  SinusoidalPositionEncoder_encode self positions depth = Raise (depth_error depth)
  /\ (exists msg, depth_error depth = ValueError msg)
  /\ ~ returns (SinusoidalPositionEncoder_encode self positions depth).
Proof.
  intros Hodd.
  assert (E : SinusoidalPositionEncoder_encode self positions depth
              = Raise (depth_error depth)).
  { unfold SinusoidalPositionEncoder_encode.
    rewrite Zmod_odd, Hodd. reflexivity. }
  split; [exact E|]. split.
  - unfold depth_error. eexists. reflexivity.
  - intros [out Hout]. rewrite E in Hout. discriminate.
Qed.


End SinusoidalClaims.

(** C2, as the specification states it, fails: at depth 2 the exception is
    the division's, not a configuration error. *)
Lemma sinusoidal_depth_two_not_rejected :
  SinusoidalPositionEncoder_encode example_sinusoidal (pylist1 [1; 2; 3]) 2
  = Raise ZeroDivisionError
  /\ ~ (exists msg,
         SinusoidalPositionEncoder_encode example_sinusoidal (pylist1 [1; 2; 3]) 2
         = Raise (ValueError msg)).
Proof.
  split; [reflexivity|].
  intros [msg H]. discriminate H.
Qed.

Lemma sinusoidal_odd_depth_value_error_witness :
  SinusoidalPositionEncoder_encode example_sinusoidal (pylist1 [1; 2; 3]) 5
  = Raise (ValueError
      "SinusoidalPositionEncoder expects the depth to be divisble by 2 but got 5")
  /\ ~ returns (SinusoidalPositionEncoder_encode example_sinusoidal (pylist1 [1; 2; 3]) 5).
Proof.
  destruct (sinusoidal_odd_depth_value_error example_sinusoidal (pylist1 [1; 2; 3]) 5
              eq_refl) as (E & _ & Hno).
  split; [exact E | exact Hno].
Defined.


(* ------------------------------------------------------------------ *)
(** ** Claims on [PositionEmbedder] *)

Lemma example_embedder_built :
  PositionEmbedder_build (PositionEmbedder_init 2 SumReducer) example_initializer
    (1%nat, 1%nat, 2%nat) = Ok example_embedder.
Proof. reflexivity. Qed.

Section EmbedderFacts.

Context {F : Type}.

Implicit Types (self : @PositionEmbedder F) (positions : Tensor2 Z)
  (table : Tensor2 F).

Lemma build_inv self0 self (initializer : nat -> nat -> F) (input_shape : nat * nat * nat) :
  PositionEmbedder_build self0 initializer input_shape = Ok self ->
  maximum_position self = maximum_position self0 /\
  0 <= maximum_position self + 1 /\
  exists table,
    embeddings self = Some table /\ wf2 table /\
    shape2 table = (Z.to_nat (maximum_position self + 1), snd input_shape).
Proof.
  unfold PositionEmbedder_build, add_weight.
  destruct (Z.ltb_spec (maximum_position self0 + 1) 0) as [Hneg|Hpos]; simpl;
    [discriminate|].
  intros [= <-]. simpl. repeat split; auto.
  eexists. split; [reflexivity|]. split; [|reflexivity].
  split; simpl.
  - now rewrite length_map, length_seq.
  - rewrite Forall_map. apply Forall_forall. intros i _.
    now rewrite length_map, length_seq.
Qed.

Lemma lookup_row_in_range table (i : Z) :
  wf2 table -> 0 <= i < Z.of_nat (fst (shape2 table)) ->
  exists row, nth_error (data2 table) (Z.to_nat i) = Some row /\
              lookup_row table i = Ok row.
Proof.
  intros [Hlen _] Hi. unfold lookup_row.
  destruct (Z.leb_spec 0 i); [|lia].
  destruct (Z.ltb_spec i (Z.of_nat (fst (shape2 table)))); [|lia]. simpl.
  destruct (nth_error (data2 table) (Z.to_nat i)) as [row|] eqn:E.
  - now exists row.
  - apply nth_error_None in E. lia.
Qed.

Lemma mapM_returns {A B : Type} (f : A -> result B) (l : list A) :
  Forall (fun a => returns (f a)) l -> returns (mapM f l).
Proof.
  induction 1 as [|a l [b Hb] _ [bs Hbs]]; simpl.
  - now exists [].
  - rewrite Hb, Hbs. simpl. now exists (b :: bs).
Qed.

End EmbedderFacts.

Section EmbedderClaims.

Context {F : Type}.

Implicit Types (self : @PositionEmbedder F) (positions : Tensor2 Z)
  (table : Tensor2 F).

(** C3, as the code has it. [encode] never reads its [depth] argument: the
    result is the same for every depth, and a returned tensor has the depth
    of the table, whatever depth was asked for. No error is raised on account
    of the depth. *)
Theorem embedder_encode_ignores_depth self positions (depth depth' : Z) :
  PositionEmbedder_encode self positions depth
  = PositionEmbedder_encode self positions depth'
  /\ forall table out,
       embeddings self = Some table ->
       PositionEmbedder_encode self positions depth = Ok out ->
       dim2 out = snd (shape2 table).
Proof.
  split; [reflexivity|].
  intros table out Htable. unfold PositionEmbedder_encode, tf_nn_embedding_lookup.
  rewrite Htable.
  destruct (mapM _ _) as [rows|e]; simpl; [|discriminate].
  now intros [= <-].
Qed.

(** C6. For a built embedder with maximum position [M], [encode] looks up
    [min p M] for each position [p]; the position [M + 5] gives the result
    of the position [M], which for [M >= 0] is row [M] of the table; and a
    negative position is left as it is by the clamp. *)
Theorem embedder_encode_clamps_upper self0 self (initializer : nat -> nat -> F)
    (input_shape : nat * nat * nat) positions (depth : Z) :
  PositionEmbedder_build self0 initializer input_shape = Ok self ->
  PositionEmbedder_encode self positions depth
  = tf_nn_embedding_lookup (embeddings self)
      (mkTensor2 (shape2 positions)
         (map (map (fun p => Z.min p (maximum_position self))) (data2 positions)))
  /\ PositionEmbedder_encode self (pylist1 [maximum_position self + 5]) depth
     = PositionEmbedder_encode self (pylist1 [maximum_position self]) depth
  /\ (0 <= maximum_position self ->
      exists table row,
        embeddings self = Some table /\
        nth_error (data2 table) (Z.to_nat (maximum_position self)) = Some row /\
        PositionEmbedder_encode self (pylist1 [maximum_position self + 5]) depth
        = Ok (mkTensor3 (1%nat, 1%nat, snd input_shape) [[row]]))
  /\ forall p, p < 0 -> Z.min p (maximum_position self) = p.
Proof.
  intros Hbuild.
  destruct (build_inv _ _ _ _ Hbuild) as (_ & HM & table & Htable & Hwf & Hshape).
  split; [reflexivity|]. split; [|split].
  - unfold PositionEmbedder_encode, tf_minimum, pylist1. simpl.
    rewrite Z.min_r by lia. now rewrite Z.min_id.
  - intros HM0. exists table.
    destruct (lookup_row_in_range table (maximum_position self) Hwf)
      as (row & Hnth & Hrow).
    { rewrite Hshape. simpl. lia. }
    exists row. split; [exact Htable|]. split; [exact Hnth|].
    unfold PositionEmbedder_encode, tf_minimum, pylist1, tf_nn_embedding_lookup.
    rewrite Htable. simpl. rewrite Z.min_r by lia. rewrite Hrow. simpl.
    now rewrite Hshape.
  - intros p Hp. apply Z.min_l. lia.
Qed.

(** C7, as the code has it. For an embedder with maximum position [M >= 0]
    and a table of [M + 1] rows, the index looked up for a position [p >= 0]
    is [min p M], which lies in [[0, M]] and is a row of the table, so
    [encode] returns. The clamp bounds the index from above only. *)
Theorem embedder_lookup_index_in_range self table positions (depth : Z) :
  0 <= maximum_position self ->
  embeddings self = Some table -> wf2 table ->
  fst (shape2 table) = Z.to_nat (maximum_position self + 1) ->
  Forall (Forall (fun p => 0 <= p)) (data2 positions) ->
  Forall (Forall (fun i => 0 <= i <= maximum_position self /\
                           returns (lookup_row table i)))
         (data2 (tf_minimum positions (maximum_position self)))
  /\ returns (PositionEmbedder_encode self positions depth).
Proof.
  intros HM Htable Hwf Hrows Hpos.
  assert (Hidx : Forall (Forall (fun i => 0 <= i <= maximum_position self /\
                                          returns (lookup_row table i)))
                   (data2 (tf_minimum positions (maximum_position self)))).
  { simpl. rewrite Forall_map. revert Hpos. apply Forall_impl. intros row.
    rewrite Forall_map. apply Forall_impl. intros p Hp.
    split; [lia|].
    destruct (lookup_row_in_range table (Z.min p (maximum_position self)) Hwf)
      as (r & _ & Hr); [rewrite Hrows; lia|].
    now exists r. }
  split; [exact Hidx|].
  unfold PositionEmbedder_encode, tf_nn_embedding_lookup. rewrite Htable.
  destruct (mapM_returns (mapM (lookup_row table))
              (data2 (tf_minimum positions (maximum_position self))))
    as [rows Hrows'].
  { revert Hidx. apply Forall_impl. intros row Hrow. apply mapM_returns.
    revert Hrow. apply Forall_impl. now intros i [_ Hi]. }
  rewrite Hrows'. simpl. eexists. reflexivity.
Qed.

End EmbedderClaims.

(** C3, as the specification states it, fails: an embedder built for depth 2
    and asked for depth 3 returns a row of the table and raises nothing. *)
Lemma embedder_other_depth_returns :
  PositionEmbedder_encode example_embedder (pylist1 [1]) 3
  = Ok (mkTensor3 (1%nat, 1%nat, 2%nat) [[[10; 11]]]%R)
  /\ ~ raises (PositionEmbedder_encode example_embedder (pylist1 [1]) 3).
Proof.
  split; [reflexivity|].
  intros [e He]. discriminate He.
Qed.

Lemma embedder_encode_ignores_depth_witness :
  PositionEmbedder_encode example_embedder (pylist1 [1]) 3
  = PositionEmbedder_encode example_embedder (pylist1 [1]) 2
  /\ dim2 (mkTensor3 (1%nat, 1%nat, 2%nat) [[[10; 11]]]%R) = 2%nat.
Proof.
  destruct (embedder_encode_ignores_depth example_embedder (pylist1 [1]) 3 2)
    as [Hsame Hdepth].
  split; [exact Hsame|].
  exact (Hdepth _ _ eq_refl eq_refl).
Defined.

Lemma embedder_encode_clamps_upper_witness :
  PositionEmbedder_encode example_embedder (pylist1 [7]) 2
  = PositionEmbedder_encode example_embedder (pylist1 [2]) 2
  /\ PositionEmbedder_encode example_embedder (pylist1 [7]) 2
     = Ok (mkTensor3 (1%nat, 1%nat, 2%nat) [[[20; 21]]]%R).
Proof.
  destruct (embedder_encode_clamps_upper _ _ _ _ (pylist1 [7]) 2 example_embedder_built)
    as (_ & Hsame & _ & _).
  split; [exact Hsame | reflexivity].
Defined.

(** C7, as the specification states it, fails: the position -1 is looked up
    at index -1, which is below 0 and is no row of the table. *)
Lemma embedder_negative_index_used :
  data2 (tf_minimum (pylist1 [-1]) (maximum_position example_embedder)) = [[-1]]
  /\ ~ (0 <= -1 <= maximum_position example_embedder)
  /\ PositionEmbedder_encode example_embedder (pylist1 [-1]) 2
     = Raise InvalidArgumentError.
Proof.
  split; [reflexivity|]. split; [|reflexivity].
  intros [H _]. now apply H.
Qed.

Lemma embedder_lookup_index_in_range_witness :
  Forall (Forall (fun i => 0 <= i <= 2 /\
                           returns (lookup_row (mkTensor2 (3%nat, 2%nat)
                                      [[0; 1]; [10; 11]; [20; 21]]%R) i)))
         [[0; 1; 2; 2]]
  /\ returns (PositionEmbedder_encode example_embedder (pylist1 [0; 1; 2; 9]) 2).
Proof.
  apply (embedder_lookup_index_in_range example_embedder _ (pylist1 [0; 1; 2; 9]) 2).
  - simpl. lia.
  - reflexivity.
  - split; [reflexivity|]. repeat constructor.
  - reflexivity.
  - simpl. repeat constructor; lia.
Defined.

(* ------------------------------------------------------------------ *)
(** ** [PositionEncoder.call] *)

Section CallFacts.

Context {F : Type} {ops : FloatOps F}.

Lemma range_plus_one (T : nat) :
  map (fun i => i + 1) (tf_range T) = map Z.of_nat (seq 1 T).
Proof.
  unfold tf_range. rewrite <- seq_shift, !map_map.
  apply map_ext. intros i. lia.
Qed.

Lemma call_positions_none (T : nat) :
  call_positions T None = mkTensor2 (1%nat, T) [map Z.of_nat (seq 1 T)].
Proof.
  unfold call_positions, pylist1. rewrite range_plus_one.
  now rewrite length_map, length_seq.
Qed.


Lemma shape3_eqb_eq (s1 s2 : nat * nat * nat) :
  shape3_eqb s1 s2 = true <-> s1 = s2.
Proof.
  destruct s1 as [[a1 b1] c1], s2 as [[a2 b2] c2]. unfold shape3_eqb. simpl.
  rewrite !andb_true_iff, !Nat.eqb_eq. split.
  - intros [[-> ->] ->]. reflexivity.
  - intros [= -> -> ->]. auto.
Qed.

Lemma SumReducer_pair (x y : Tensor3 F) : SumReducer [x; y] = add3 x y.
Proof. reflexivity. Qed.

Lemma add3_returns_iff (x y : Tensor3 F) :
  returns (add3 x y) <-> shape3 x = shape3 y.
Proof.
  unfold add3. rewrite <- shape3_eqb_eq.
  destruct (shape3_eqb (shape3 x) (shape3 y)); split; intros H; try reflexivity.
  - eexists. reflexivity.
  - destruct H as [o Ho]. discriminate.
  - discriminate.
Qed.

Lemma Forall_map2 {A B C : Type} (P : A -> Prop) (Q : B -> Prop) (R : C -> Prop)
    (f : A -> B -> C) (l1 : list A) (l2 : list B) :
  (forall a b, P a -> Q b -> R (f a b)) ->
  Forall P l1 -> Forall Q l2 -> Forall R (map2 f l1 l2).
Proof.
  intros Hf H1. revert l2. induction H1 as [|a l1 Ha _ IH]; intros l2 H2; simpl.
  - constructor.
  - destruct H2 as [|b l2 Hb H2]; constructor; auto.
Qed.

Lemma Forall_tile {A : Type} (P : A -> Prop) (l : list A) (n : nat) :
  Forall P l -> Forall P (concat (repeat l n)).
Proof.
  intros Hl. induction n as [|n IH]; simpl; [constructor|].
  apply Forall_app. now split.
Qed.

Lemma tile_batch_wf {A : Type} (t : Tensor3 A) (n : nat) :
  wf3 t -> wf3 (tf_tile_batch t n).
Proof.
  intros [Hlen Hmats]. split.
  - unfold dim0. simpl. fold (tf_tile1 (data3 t) n).
    rewrite tile1_length, Hlen. reflexivity.
  - unfold dim1, dim2. simpl. now apply Forall_tile.
Qed.

Lemma add3_wf (x y out : Tensor3 F) :
  wf3 x -> wf3 y -> add3 x y = Ok out -> wf3 out /\ shape3 out = shape3 x.
Proof.
  intros [Hx Hxm] [Hy Hym]. unfold add3.
  destruct (shape3_eqb (shape3 x) (shape3 y)) eqn:E; [|discriminate].
  apply shape3_eqb_eq in E. intros [= <-]. split; [|reflexivity].
  unfold dim0, dim1, dim2 in *. rewrite <- E in *. split; simpl.
  - rewrite map2_length, Hx, Hy. apply Nat.min_id.
  - revert Hxm Hym. apply Forall_map2. intros a b [Ha Ham] [Hb Hbm]. split.
    + rewrite map2_length, Ha, Hb. apply Nat.min_id.
    + revert Ham Hbm. apply Forall_map2. intros r1 r2 H1 H2.
      rewrite map2_length, H1, H2. apply Nat.min_id.
Qed.

Lemma add3_get (x y out : Tensor3 F) (b t k : nat) (u v : F) :
  add3 x y = Ok out -> get3 x b t k = Some u -> get3 y b t k = Some v ->
  get3 out b t k = Some (fadd u v).
Proof.
  unfold add3. destruct (shape3_eqb _ _); [|discriminate].
  intros [= <-]. unfold get3. simpl.
  destruct (nth_error (data3 x) b) as [mx|] eqn:Ex; [|discriminate].
  destruct (nth_error (data3 y) b) as [my|] eqn:Ey; [|discriminate].
  rewrite (map2_nth_error _ _ _ _ _ _ Ex Ey).
  destruct (nth_error mx t) as [rx|] eqn:Erx; [|discriminate].
  destruct (nth_error my t) as [ry|] eqn:Ery; [|discriminate].
  rewrite (map2_nth_error _ _ _ _ _ _ Erx Ery).
  intros Hu Hv. now apply map2_nth_error.
Qed.

End CallFacts.

Section CallClaims.

Context {F : Type} {ops : FloatOps F} {S : Type} {strategy : @PositionEncoder F S}.

(** C4. With no position given, [call] passes to [encode] one sequence, the
    positions [1, 2, ..., T] in order, for an input of [T] timesteps; the
    encoding of that one sequence is then tiled over the batch. *)
Theorem call_default_positions (self : S) (B T D : nat)
    (data : list (list (list F))) :
  call_positions T None = mkTensor2 (1%nat, T) [map Z.of_nat (seq 1 T)]
  /\ (forall i, (i < T)%nat ->
        get2 (call_positions T None) 0 i = Some (Z.of_nat i + 1))
  /\ call self (mkTensor3 (B, T, D) data) None
     = (position_encoding <-
          encode self (mkTensor2 (1%nat, T) [map Z.of_nat (seq 1 T)]) (Z.of_nat D) ;;
        reducer self [mkTensor3 (B, T, D) data; tf_tile_batch position_encoding B]).
Proof.
  split; [apply call_positions_none|]. split.
  - intros i Hi. rewrite call_positions_none. unfold get2. simpl.
    rewrite nth_error_map, nth_error_seq.
    destruct (Nat.ltb_spec i T); [|lia]. simpl. f_equal. lia.
  - unfold call, dim0, dim1, dim2. simpl. now rewrite call_positions_none.
Qed.

(** C8. With no position given and the sum merger, when [encode] returns
    the encoding of the one position sequence with shape [[1, T, D]], [call]
    on an input of shape [[B, T, D]] returns a tensor of shape [[B, T, D]];
    every batch row of the tiled encoding is that one encoding, and each
    output cell is the input cell plus the encoding of its timestep. *)
Theorem call_sum_shape_shared_encoding (self : S) (inputs pe : Tensor3 F)
    (B T D : nat) :
  shape3 inputs = (B, T, D) -> wf3 inputs ->
  reducer self = SumReducer ->
  encode self (call_positions T None) (Z.of_nat D) = Ok pe ->
  shape3 pe = (1%nat, T, D) -> wf3 pe ->
  exists out,
    call self inputs None = Ok out /\
    shape3 out = (B, T, D) /\ wf3 out /\
    (forall b, (b < B)%nat ->
       nth_error (data3 (tf_tile_batch pe B)) b = nth_error (data3 pe) 0) /\
    (forall b t k x e,
       get3 inputs b t k = Some x -> get3 pe 0 t k = Some e ->
       get3 out b t k = Some (fadd x e)).
Proof.
  intros Hshape Hwf Hred Henc Hpe Hpewf.
  assert (Hlen1 : length (data3 pe) = 1%nat).
  { destruct Hpewf as [Hl _]. unfold dim0 in Hl. now rewrite Hpe in Hl. }
  assert (Htile : forall b, (b < B)%nat ->
            nth_error (data3 (tf_tile_batch pe B)) b = nth_error (data3 pe) 0).
  { intros b Hb. now apply tile_batch_row. }
  assert (Hsh : shape3 inputs = shape3 (tf_tile_batch pe B)).
  { unfold tf_tile_batch, dim0, dim1, dim2. simpl. rewrite Hshape, Hpe. simpl.
    now rewrite Nat.mul_1_r. }
  destruct (proj2 (add3_returns_iff inputs (tf_tile_batch pe B)) Hsh) as [out Hout].
  assert (Hcall : call self inputs None = Ok out).
  { unfold call, dim0, dim1, dim2. rewrite Hshape. simpl fst. simpl snd.
    rewrite Henc. simpl bind. now rewrite Hred, SumReducer_pair. }
  destruct (add3_wf _ _ _ Hwf (tile_batch_wf pe B Hpewf) Hout) as [Hwfo Hsho].
  exists out. split; [exact Hcall|]. split; [now rewrite Hsho|].
  split; [exact Hwfo|]. split; [exact Htile|].
  intros b t k x e Hx He. apply (add3_get _ _ _ _ _ _ _ _ Hout Hx).
  assert (Hb : (b < B)%nat).
  { destruct Hwf as [Hl _]. unfold dim0 in Hl. rewrite Hshape in Hl. simpl in Hl.
    rewrite <- Hl. apply nth_error_Some. unfold get3 in Hx.
    destruct (nth_error (data3 inputs) b); [discriminate | discriminate Hx]. }
  unfold get3 in *. now rewrite (Htile b Hb).
Qed.


End CallClaims.

(* ------------------------------------------------------------------ *)
(** ** The two strategies keep the leading dimensions *)

Lemma reshape_rows_shape {A : Type} (v : list A) (n : nat) (t : Tensor2 A) :
  tf_reshape_rows v n = Ok t -> fst (shape2 t) = n.
Proof.
  unfold tf_reshape_rows. destruct n as [|m]; [discriminate|].
  destruct (_ =? _)%nat; [|discriminate]. now intros [= <-].
Qed.

Lemma sinusoidal_keeps_leading_dims {F : Type} {ops : FloatOps F}
    (self : @SinusoidalPositionEncoder F) :
  keeps_leading_dims self.
Proof.
  intros positions depth out. simpl. unfold SinusoidalPositionEncoder_encode.
  destruct (negb (depth mod 2 =? 0)); [discriminate|].
  destruct (py_div _ _) as [inc|e]; simpl; [|discriminate].
  destruct (tf_reshape_rows _ _) as [inv|e] eqn:Hre; simpl; [|discriminate].
  apply reshape_rows_shape in Hre.
  unfold tf_broadcast3, dim0, dim1, dim2. simpl. rewrite Hre.
  rewrite broadcast_dim_same, broadcast_dim_1_r, broadcast_dim_1_l. simpl.
  unfold tf_concat_axis2, dim0, dim1, dim2. simpl. rewrite !Nat.eqb_refl. simpl.
  intros [= <-]. unfold dim0, dim1. simpl. now destruct (shape2 positions).
Qed.


(* ------------------------------------------------------------------ *)
(** ** Runs of [call] *)

Lemma call_default_positions_witness :
  call_positions 3 None = mkTensor2 (1%nat, 3%nat) [[1; 2; 3]]
  /\ get2 (call_positions 3 None) 0 2 = Some 3.
Proof.
  destruct (call_default_positions example_embedder 1 3 2
              (data3 example_inputs_three_steps)) as (Hpos & Hget & _).
  split; [exact Hpos|]. apply (Hget 2%nat). lia.
Defined.

Lemma call_sum_shape_shared_encoding_witness :
  exists out,
    call example_sinusoidal example_inputs None = Ok out /\
    shape3 out = (2%nat, 2%nat, 4%nat) /\ wf3 out.
Proof.
  destruct (call_sum_shape_shared_encoding example_sinusoidal example_inputs
              (mkTensor3 (1%nat, 2%nat, 4%nat)
                 (map (map (encoding_row float32 4)) [[1; 2]])) 2 2 4)
    as (out & Hcall & Hshape & Hwf & _).
  - reflexivity.
  - split; [reflexivity|]. repeat constructor.
  - reflexivity.
  - reflexivity.
  - reflexivity.
  - split; [reflexivity|]. repeat constructor.
  - exists out. split; [exact Hcall|]. split; [exact Hshape | exact Hwf].
Defined.


(* ------------------------------------------------------------------ *)
(** ** Further properties of the two strategies *)

Lemma encoding_row_bounded (dt : DType) (depth p : Z) :
  Forall (fun x : R => (-1 <= x <= 1)%R) (encoding_row dt depth p).
Proof.
  unfold encoding_row. apply Forall_app. split; rewrite Forall_map;
    apply Forall_forall; intros k _; simpl.
  - apply SIN_bound.
  - apply COS_bound.
Qed.

(** In the real numbers every value of a sinusoidal encoding lies in
    [[-1, 1]]: on a non-empty batch and an even depth other than 2, [encode]
    returns, and each cell of the result is a sine or a cosine. *)
Theorem sinusoidal_encode_values_bounded
    (self : @SinusoidalPositionEncoder R) (positions : Tensor2 Z) (depth : Z) :
  wf2 positions -> (1 <= fst (shape2 positions))%nat ->
  depth mod 2 = 0 -> depth / 2 <> 1 ->
  exists out,
    SinusoidalPositionEncoder_encode self positions depth = Ok out /\
    Forall (Forall (Forall (fun x : R => (-1 <= x <= 1)%R))) (data3 out).
Proof.
  intros Hwf HB Heven Hhalf. eexists. split.
  - now apply sinusoidal_encode_closed.
  - simpl. rewrite Forall_map. apply Forall_forall. intros row _.
    rewrite Forall_map. apply Forall_forall. intros p _.
    apply encoding_row_bounded.
Qed.

Lemma sinusoidal_encode_values_bounded_witness :
  exists out,
    SinusoidalPositionEncoder_encode example_sinusoidal (pylist1 [1; 2; 3]) 4 = Ok out /\
    Forall (Forall (Forall (fun x : R => (-1 <= x <= 1)%R))) (data3 out).
Proof.
  apply (sinusoidal_encode_values_bounded example_sinusoidal (pylist1 [1; 2; 3]) 4).
  - split; [reflexivity|]. repeat constructor.
  - simpl. lia.
  - reflexivity.
  - vm_compute. discriminate.
Defined.

(** [build] gives the embedder a table of [maximum_position + 1] rows and
    of the depth of the input shape, and leaves [maximum_position] as it
    was. *)
Theorem embedder_build_table_shape {F : Type} (self0 self : @PositionEmbedder F)
    (initializer : nat -> nat -> F) (input_shape : nat * nat * nat) :
  PositionEmbedder_build self0 initializer input_shape = Ok self ->
  maximum_position self = maximum_position self0 /\
  exists table,
    embeddings self = Some table /\ wf2 table /\
    shape2 table = (Z.to_nat (maximum_position self0 + 1), snd input_shape).
Proof.
  intros Hbuild.
  destruct (build_inv _ _ _ _ Hbuild) as (HM & _ & table & Ht & Hwf & Hshape).
  split; [exact HM|]. exists table. rewrite <- HM. auto.
Qed.

Lemma embedder_build_table_shape_witness :
  exists table,
    embeddings example_embedder = Some table /\ wf2 table /\
    shape2 table = (3%nat, 2%nat).
Proof.
  destruct (embedder_build_table_shape _ _ _ _ example_embedder_built)
    as (_ & table & Ht & Hwf & Hshape).
  exists table. split; [exact Ht|]. split; [exact Hwf | exact Hshape].
Defined.

(* ================================================================== *)
(** * The encodings as a user of the layers sees them *)

(** ** Rows of a result *)

Lemma row3_map {A B : Type} (f : A -> list B) (s3 : nat * nat * nat)
    (s2 : nat * nat) (d : list (list A)) (b t : nat) :
  row3 (mkTensor3 s3 (map (map f) d)) b t = option_map f (get2 (mkTensor2 s2 d) b t).
Proof.
  unfold row3, get2. simpl. rewrite nth_error_map.
  destruct (nth_error d b) as [row|]; simpl; [|reflexivity].
  now rewrite nth_error_map.
Qed.

Lemma get3_row3 {A : Type} (t : Tensor3 A) (b i k : nat) :
  get3 t b i k = match row3 t b i with
                 | Some row => nth_error row k
                 | None => None
                 end.
Proof. unfold get3, row3. now destruct (nth_error (data3 t) b). Qed.

Lemma concat_repeat_singleton {A : Type} (x : A) (n : nat) :
  concat (repeat [x] n) = repeat x n.
Proof. induction n as [|n IH]; simpl; [reflexivity | now rewrite IH]. Qed.

Lemma even_nat_mod (D : nat) : Nat.even D = true -> Z.of_nat D mod 2 = 0.
Proof.
  intros He. apply Nat.even_spec in He. destruct He as [m ->].
  rewrite Nat2Z.inj_mul, Z.mul_comm. apply Z.mod_mul. lia.
Qed.

Lemma even_nat_halves (D : nat) :
  Nat.even D = true ->
  (Z.to_nat (Z.of_nat D / 2) + Z.to_nat (Z.of_nat D / 2))%nat = D.
Proof.
  intros He. pose proof (even_double _ (even_nat_mod D He)) as Hd.
  rewrite <- Z2Nat.inj_add by lia. lia.
Qed.

Section SinusoidalRows.

Context {F : Type} {ops : FloatOps F}.

Implicit Types (self : @SinusoidalPositionEncoder F) (positions : Tensor2 Z).

(** The rows of a returned encoding, cell by cell. *)
Lemma sinusoidal_rows self positions (depth : Z) :
  wf2 positions -> (1 <= fst (shape2 positions))%nat ->
  depth mod 2 = 0 -> depth / 2 <> 1 ->
  exists out,
    SinusoidalPositionEncoder_encode self positions depth = Ok out /\
    forall b t,
      row3 out b t
      = option_map (encoding_row (dtype self) depth) (get2 positions b t).
Proof.
  intros Hwf HB Heven Hhalf. eexists. split.
  - now apply sinusoidal_encode_closed.
  - intros b t. rewrite (row3_map _ _ (shape2 positions)).
    now destruct positions.
Qed.



End SinusoidalRows.

(* ------------------------------------------------------------------ *)
(** ** The sinusoidal encoding in the real numbers *)

Section SinusoidalReal.

Implicit Types (self : @SinusoidalPositionEncoder R) (positions : Tensor2 Z).

(** The two channels of frequency index [k] of a cell of position [p]. *)
Lemma real_channels self positions (depth : Z) :
  wf2 positions -> (1 <= fst (shape2 positions))%nat ->
  depth mod 2 = 0 -> depth / 2 <> 1 ->
  exists out,
    SinusoidalPositionEncoder_encode self positions depth = Ok out /\
    forall b t p k,
      get2 positions b t = Some p -> (k < Z.to_nat (depth / 2))%nat ->
      get3 out b t k = Some (sin (IZR p * inv_timescale depth k)) /\
      get3 out b t (Z.to_nat (depth / 2) + k)
      = Some (cos (IZR p * inv_timescale depth k)).
Proof.
  intros Hwf HB Heven Hhalf.
  destruct (sinusoidal_rows self positions depth Hwf HB Heven Hhalf)
    as (out & Hout & Hrows).
  exists out. split; [exact Hout|].
  intros b t p k Hp Hk. rewrite !get3_row3, Hrows, Hp. cbv [option_map]. cbv iota.
  rewrite encoding_row_sin, encoding_row_cos by exact Hk. split; reflexivity.
Qed.

Lemma map_seq_const {A : Type} (f : nat -> A) (c : A) (a n : nat) :
  (forall k, f k = c) -> map f (seq a n) = repeat c n.
Proof.
  intros Hf. revert a. induction n as [|n IH]; intros a; simpl; [reflexivity|].
  now rewrite Hf, IH.
Qed.

Lemma inv_timescale_first (depth : Z) : inv_timescale depth 0 = 1%R.
Proof. unfold inv_timescale. simpl. now rewrite Rmult_0_l, exp_0. Qed.

Lemma inv_timescale_last (depth : Z) :
  2 <= depth / 2 ->
  inv_timescale depth (Z.to_nat (depth / 2) - 1) = (/ 10000)%R.
Proof.
  intros Hhalf. unfold inv_timescale. simpl.
  replace (Z.of_nat (Z.to_nat (depth / 2) - 1)) with (depth / 2 - 1) by lia.
  assert (Hd : IZR (depth / 2 - 1) <> 0%R) by (apply not_0_IZR; lia).
  replace (IZR (depth / 2 - 1) * - (ln 10000 / IZR (depth / 2 - 1)))%R
    with (- ln 10000)%R by (field; exact Hd).
  rewrite exp_Ropp, exp_ln by lra. reflexivity.
Qed.

(** The sine and the cosine channel of one frequency lie on the unit
    circle: their squares add up to 1. *)
Theorem sinusoidal_channel_pair_on_unit_circle self positions (depth : Z) :
  wf2 positions -> (1 <= fst (shape2 positions))%nat ->
  depth mod 2 = 0 -> depth / 2 <> 1 ->
  exists out,
    SinusoidalPositionEncoder_encode self positions depth = Ok out /\
    forall b t p k,
      get2 positions b t = Some p -> (k < Z.to_nat (depth / 2))%nat ->
      exists s c,
        get3 out b t k = Some s /\
        get3 out b t (Z.to_nat (depth / 2) + k) = Some c /\
        (s * s + c * c = 1)%R.
Proof.
  intros Hwf HB Heven Hhalf.
  destruct (real_channels self positions depth Hwf HB Heven Hhalf)
    as (out & Hout & Hch).
  exists out. split; [exact Hout|].
  intros b t p k Hp Hk. destruct (Hch b t p k Hp Hk) as [Hs Hc].
  eexists. eexists. split; [exact Hs|]. split; [exact Hc|].
  apply sin2_cos2.
Qed.

(** The position 0 is encoded by zeros in the sine half and ones in the
    cosine half, at every even depth other than 2. *)
Theorem sinusoidal_position_zero_row self positions (depth : Z) :
  wf2 positions -> (1 <= fst (shape2 positions))%nat ->
  depth mod 2 = 0 -> depth / 2 <> 1 ->
  exists out,
    SinusoidalPositionEncoder_encode self positions depth = Ok out /\
    forall b t,
      get2 positions b t = Some 0 ->
      row3 out b t
      = Some (repeat 0%R (Z.to_nat (depth / 2)) ++ repeat 1%R (Z.to_nat (depth / 2))).
Proof.
  intros Hwf HB Heven Hhalf.
  destruct (sinusoidal_rows self positions depth Hwf HB Heven Hhalf)
    as (out & Hout & Hrows).
  exists out. split; [exact Hout|].
  intros b t Hp. rewrite Hrows, Hp. simpl option_map. f_equal.
  unfold encoding_row. cbv zeta. f_equal; apply map_seq_const; intros k; simpl.
  - now rewrite Rmult_0_l, sin_0.
  - now rewrite Rmult_0_l, cos_0.
Qed.

(** The timescales run from 1 to 10000: for half-depth at least 2, the
    first channel of each half is the sine, respectively the cosine, of the
    position itself, and the last channel of each half that of the position
    divided by 10000. *)
Theorem sinusoidal_first_and_last_timescale self positions (depth : Z) :
  wf2 positions -> (1 <= fst (shape2 positions))%nat ->
  depth mod 2 = 0 -> 2 <= depth / 2 ->
  exists out,
    SinusoidalPositionEncoder_encode self positions depth = Ok out /\
    forall b t p,
      get2 positions b t = Some p ->
      get3 out b t 0 = Some (sin (IZR p)) /\
      get3 out b t (Z.to_nat (depth / 2)) = Some (cos (IZR p)) /\
      get3 out b t (Z.to_nat (depth / 2) - 1) = Some (sin (IZR p / 10000)) /\
      get3 out b t (Z.to_nat depth - 1) = Some (cos (IZR p / 10000)).
Proof.
  intros Hwf HB Heven Hhalf.
  destruct (real_channels self positions depth Hwf HB Heven) as (out & Hout & Hch);
    [lia|].
  exists out. split; [exact Hout|].
  intros b t p Hp.
  destruct (Hch b t p 0%nat Hp) as [Hs0 Hc0]; [lia|].
  destruct (Hch b t p (Z.to_nat (depth / 2) - 1)%nat Hp) as [Hs1 Hc1]; [lia|].
  rewrite inv_timescale_first, Rmult_1_r in Hs0, Hc0.
  rewrite inv_timescale_last in Hs1, Hc1 by exact Hhalf.
  rewrite Nat.add_0_r in Hc0.
  pose proof (even_double depth Heven) as Hd.
  replace (Z.to_nat (depth / 2) + (Z.to_nat (depth / 2) - 1))%nat
    with (Z.to_nat depth - 1)%nat in Hc1 by lia.
  repeat split; assumption.
Qed.

(** The encoding of a sum of positions follows from the encodings of the
    two positions, channel pair by channel pair, by the addition formulas
    of sine and cosine: a shift of the position is a rotation of every
    channel pair. *)
Theorem sinusoidal_shift_is_rotation self positions (depth : Z) :
  wf2 positions -> (1 <= fst (shape2 positions))%nat ->
  depth mod 2 = 0 -> depth / 2 <> 1 ->
  exists out,
    SinusoidalPositionEncoder_encode self positions depth = Ok out /\
    forall b1 t1 b2 t2 b3 t3 p q k,
      get2 positions b1 t1 = Some p -> get2 positions b2 t2 = Some q ->
      get2 positions b3 t3 = Some (p + q) ->
      (k < Z.to_nat (depth / 2))%nat ->
      exists sp cp sq cq,
        get3 out b1 t1 k = Some sp /\
        get3 out b1 t1 (Z.to_nat (depth / 2) + k) = Some cp /\
        get3 out b2 t2 k = Some sq /\
        get3 out b2 t2 (Z.to_nat (depth / 2) + k) = Some cq /\
        get3 out b3 t3 k = Some (sp * cq + cp * sq)%R /\
        get3 out b3 t3 (Z.to_nat (depth / 2) + k) = Some (cp * cq - sp * sq)%R.
Proof.
  intros Hwf HB Heven Hhalf.
  destruct (real_channels self positions depth Hwf HB Heven Hhalf)
    as (out & Hout & Hch).
  exists out. split; [exact Hout|].
  intros b1 t1 b2 t2 b3 t3 p q k Hp Hq Hpq Hk.
  destruct (Hch _ _ _ k Hp Hk) as [Hsp Hcp].
  destruct (Hch _ _ _ k Hq Hk) as [Hsq Hcq].
  destruct (Hch _ _ _ k Hpq Hk) as [Hs Hc].
  do 4 eexists.
  split; [exact Hsp|]. split; [exact Hcp|]. split; [exact Hsq|].
  split; [exact Hcq|].
  rewrite Hs, Hc, plus_IZR, Rmult_plus_distr_r, sin_plus, cos_plus.
  split; reflexivity.
Qed.

End SinusoidalReal.

(* ------------------------------------------------------------------ *)
(** ** [call] on a sinusoidal encoder *)

Lemma odd_nat_mod (D : nat) : Nat.odd D = true -> Z.of_nat D mod 2 = 1.
Proof.
  intros Ho. apply Nat.odd_spec in Ho. destruct Ho as [m ->].
  rewrite Nat2Z.inj_add, Nat2Z.inj_mul, Z.add_comm, Z.mul_comm.
  now rewrite Z.mod_add by lia.
Qed.

Section CallSinusoidal.

Context {F : Type} {ops : FloatOps F}.

Implicit Types (self : @SinusoidalPositionEncoder F) (inputs : Tensor3 F).

(** On an input of odd depth [call] raises the [ValueError] that names the
    depth, whether a position is given or not, and whatever the reducer:
    the reducer is not reached. *)
Theorem call_sinusoidal_odd_depth self inputs (position : option Z) :
  Nat.odd (dim2 inputs) = true ->
  call self inputs position = Raise (depth_error (Z.of_nat (dim2 inputs))).
Proof.
  intros Hodd. unfold call. simpl encode.
  unfold SinusoidalPositionEncoder_encode.
  now rewrite (odd_nat_mod _ Hodd).
Qed.

(** On an input of depth 2 [call] raises [ZeroDivisionError], whether a
    position is given or not, and whatever the batch, the number of
    timesteps and the reducer. *)
Theorem call_sinusoidal_depth_two self (B T : nat) (data : list (list (list F)))
    (position : option Z) :
  call self (mkTensor3 (B, T, 2%nat) data) position = Raise ZeroDivisionError.
Proof.
  unfold call, dim0, dim1, dim2. simpl encode.
  unfold SinusoidalPositionEncoder_encode. simpl shape3. simpl snd.
  change (Z.of_nat 2 mod 2 =? 0) with true. simpl negb. cbv iota.
  change (Z.of_nat 2 / 2 - 1) with 0. unfold py_div. simpl Z.eqb. cbv iota.
  reflexivity.
Qed.

Lemma nat_half_not_one (D : nat) :
  Nat.even D = true -> D <> 2%nat -> Z.of_nat D / 2 <> 1.
Proof.
  intros He Hne Hh. pose proof (even_double _ (even_nat_mod D He)). lia.
Qed.

(** On an input of shape [[B, T, D]] with [D] even and other than 2, [call]
    hands to the reducer the input and an encoding of the input's own
    shape, whose every batch entry holds the rows of the positions
    [1, ..., T]; this holds for an empty batch and for no timestep too. With
    a position given, the encoding has one timestep, the row of that
    position, for each batch entry. *)
Theorem call_sinusoidal_reaches_reducer self inputs (B T D : nat) :
  shape3 inputs = (B, T, D) -> Nat.even D = true -> D <> 2%nat ->
  call self inputs None
  = se_reducer self
      [inputs;
       mkTensor3 (B, T, D)
         (repeat (map (encoding_row (dtype self) (Z.of_nat D)) (default_positions T)) B)]
  /\ forall p,
       call self inputs (Some p)
       = se_reducer self
           [inputs;
            mkTensor3 (B, 1%nat, D)
              (repeat [encoding_row (dtype self) (Z.of_nat D) p] B)].
Proof.
  intros Hshape He Hne.
  pose proof (even_nat_mod D He) as Hmod.
  pose proof (nat_half_not_one D He Hne) as Hhalf.
  pose proof (even_nat_halves D He) as HD.
  assert (Hwf : wf2 (call_positions T None)).
  { rewrite call_positions_none. split; simpl; [reflexivity|].
    constructor; [|constructor]. now rewrite length_map, length_seq. }
  assert (Hwf' : forall p, wf2 (call_positions T (Some p))).
  { intros p. split; simpl; [reflexivity|]. repeat constructor. }
  assert (H1 : forall position, (1 <= fst (shape2 (call_positions T position)))%nat).
  { intros position. simpl. lia. }
  split; [|intros p]; unfold call, dim0, dim1, dim2; rewrite Hshape;
    simpl fst; simpl snd; simpl encode.
  - rewrite (sinusoidal_encode_closed self _ _ Hwf (H1 None) Hmod Hhalf).
    rewrite call_positions_none. simpl bind. unfold tf_tile_batch, dim0, dim1, dim2.
    simpl. rewrite HD, Nat.mul_1_r, concat_repeat_singleton. reflexivity.
  - rewrite (sinusoidal_encode_closed self _ _ (Hwf' p) (H1 (Some p)) Hmod Hhalf).
    simpl bind. unfold tf_tile_batch, dim0, dim1, dim2.
    simpl. rewrite HD, Nat.mul_1_r, concat_repeat_singleton. reflexivity.
Qed.

End CallSinusoidal.

Section CallAnyStrategy.

Context {F : Type} {S : Type} {strategy : @PositionEncoder F S}.

(** On an input of one timestep, giving no position is giving position 1:
    the first step of an incremental decoding needs no position. *)
Theorem call_one_timestep_is_position_one (self : S) (inputs : Tensor3 F) :
  dim1 inputs = 1%nat -> call self inputs None = call self inputs (Some 1).
Proof.
  intros HT. unfold call. rewrite HT. reflexivity.
Qed.

End CallAnyStrategy.

(* ------------------------------------------------------------------ *)
(** ** The rows an embedder returns *)

Section EmbedderRows.

Context {F : Type}.

Implicit Types (self : @PositionEmbedder F) (positions : Tensor2 Z)
  (table : Tensor2 F).

Lemma lookup_row_nth table (i : Z) :
  wf2 table -> 0 <= i < Z.of_nat (fst (shape2 table)) ->
  lookup_row table i = Ok (nth (Z.to_nat i) (data2 table) []).
Proof.
  intros Hwf Hi.
  destruct (lookup_row_in_range table i Hwf Hi) as (row & Hnth & Hrow).
  rewrite Hrow. f_equal. symmetry. now apply nth_error_nth.
Qed.

Lemma table_row_nth_error table (M p : Z) :
  wf2 table -> fst (shape2 table) = Z.to_nat (M + 1) -> 0 <= M -> 0 <= p ->
  nth_error (data2 table) (Z.to_nat (Z.min p M)) = Some (table_row table M p)
  /\ length (table_row table M p) = snd (shape2 table).
Proof.
  intros Hwf Hrows HM Hp.
  destruct (lookup_row_in_range table (Z.min p M) Hwf) as (row & Hnth & _);
    [rewrite Hrows; lia|].
  unfold table_row. rewrite (nth_error_nth _ _ _ Hnth). split; [exact Hnth|].
  destruct Hwf as [_ Hlen]. rewrite Forall_forall in Hlen.
  apply Hlen. eapply nth_error_In. exact Hnth.
Qed.

(** With a table of [M + 1] rows, [encode] returns, for positions that are
    not negative, the tensor of the rows [table_row]. *)
Lemma embedder_encode_closed self table positions (depth : Z) :
  0 <= maximum_position self ->
  embeddings self = Some table -> wf2 table ->
  fst (shape2 table) = Z.to_nat (maximum_position self + 1) ->
  Forall (Forall (fun p => 0 <= p)) (data2 positions) ->
  PositionEmbedder_encode self positions depth
  = Ok (mkTensor3 (fst (shape2 positions), snd (shape2 positions), snd (shape2 table))
          (map (map (table_row table (maximum_position self))) (data2 positions))).
Proof.
  intros HM Htable Hwf Hrows Hpos.
  unfold PositionEmbedder_encode, tf_nn_embedding_lookup. rewrite Htable.
  simpl data2. simpl shape2.
  rewrite (mapM_ok _ (map (fun i => nth (Z.to_nat i) (data2 table) []))).
  - simpl bind. rewrite map_map. do 2 f_equal.
    apply map_ext. intros row. now rewrite map_map.
  - rewrite Forall_map. revert Hpos. apply Forall_impl. intros row Hrow.
    apply mapM_ok. rewrite Forall_map. revert Hrow. apply Forall_impl.
    intros p Hp. apply lookup_row_nth; [exact Hwf|]. rewrite Hrows. lia.
Qed.

(** For an embedder with maximum position [M >= 0] and a table of [M + 1]
    rows, [encode] on positions that are not negative returns a tensor of
    the shape of the positions and the depth of the table, and the row of a
    cell of position [p] is row [min p M] of the table. *)
Theorem embedder_encode_returns_table_rows self table positions (depth : Z) :
  0 <= maximum_position self ->
  embeddings self = Some table -> wf2 table ->
  fst (shape2 table) = Z.to_nat (maximum_position self + 1) ->
  wf2 positions ->
  Forall (Forall (fun p => 0 <= p)) (data2 positions) ->
  exists out,
    PositionEmbedder_encode self positions depth = Ok out /\
    shape3 out
    = (fst (shape2 positions), snd (shape2 positions), snd (shape2 table)) /\
    wf3 out /\
    forall b t p,
      get2 positions b t = Some p ->
      exists row,
        row3 out b t = Some row /\
        nth_error (data2 table) (Z.to_nat (Z.min p (maximum_position self)))
        = Some row.
Proof.
  intros HM Htable Hwf Hrows [Hlen Hcols] Hpos.
  eexists. split; [apply (embedder_encode_closed self table); assumption|].
  split; [reflexivity|]. split.
  - split; unfold dim0, dim1, dim2; simpl.
    + now rewrite length_map.
    + rewrite Forall_map. rewrite Forall_forall in Hcols, Hpos |- *.
      intros row Hin. split; [rewrite length_map; now apply Hcols|].
      rewrite Forall_map. specialize (Hpos row Hin).
      revert Hpos. apply Forall_impl. intros p Hp.
      now apply table_row_nth_error.
  - intros b t p Hp. rewrite (row3_map _ _ (shape2 positions)).
    replace (mkTensor2 (shape2 positions) (data2 positions)) with positions
      by now destruct positions.
    rewrite Hp. simpl. eexists. split; [reflexivity|].
    apply table_row_nth_error; auto.
    rewrite Forall_forall in Hpos. unfold get2 in Hp.
    destruct (nth_error (data2 positions) b) as [row|] eqn:Hb; [|discriminate].
    specialize (Hpos row (nth_error_In _ _ Hb)). rewrite Forall_forall in Hpos.
    apply Hpos. eapply nth_error_In. exact Hp.
Qed.

Lemma default_positions_nonneg (T : nat) :
  Forall (Forall (fun p => 0 <= p)) (data2 (call_positions T None)).
Proof.
  rewrite call_positions_none. simpl. constructor; [|constructor].
  rewrite Forall_map. apply Forall_forall. intros i _. lia.
Qed.

(** For a sequence of any length [T], also longer than the table, the
    encoding of the omitted positions holds at timestep [t] the table row
    [min (t + 1) M]; so the timesteps from [M - 1] on all hold row [M]. *)
Theorem embedder_default_positions_saturate self table (T : nat) (depth : Z) :
  0 <= maximum_position self ->
  embeddings self = Some table -> wf2 table ->
  fst (shape2 table) = Z.to_nat (maximum_position self + 1) ->
  exists out,
    PositionEmbedder_encode self (call_positions T None) depth = Ok out /\
    (forall t, (t < T)%nat ->
       row3 out 0 t
       = nth_error (data2 table)
           (Z.to_nat (Z.min (Z.of_nat t + 1) (maximum_position self)))) /\
    (forall t, (t < T)%nat -> maximum_position self <= Z.of_nat t + 1 ->
       row3 out 0 t = nth_error (data2 table) (Z.to_nat (maximum_position self))).
Proof.
  intros HM Htable Hwf Hrows.
  assert (Hrow : forall out,
            PositionEmbedder_encode self (call_positions T None) depth = Ok out ->
            forall t, (t < T)%nat ->
              row3 out 0 t
              = nth_error (data2 table)
                  (Z.to_nat (Z.min (Z.of_nat t + 1) (maximum_position self)))).
  { intros out Hout t Ht.
    rewrite (embedder_encode_closed self table _ depth HM Htable Hwf Hrows
               (default_positions_nonneg T)) in Hout.
    injection Hout as <-. unfold row3. simpl.
    rewrite range_plus_one, !nth_error_map, nth_error_seq.
    destruct (Nat.ltb_spec t T); [|lia]. cbv [option_map].
    replace (Z.of_nat (1 + t)) with (Z.of_nat t + 1) by lia.
    symmetry. apply table_row_nth_error; auto. lia. }
  pose proof (embedder_encode_closed self table _ depth HM Htable Hwf Hrows
                (default_positions_nonneg T)) as Henc.
  eexists. split; [exact Henc|]. split.
  - exact (Hrow _ Henc).
  - intros t Ht HMt. rewrite (Hrow _ Henc t Ht). now rewrite Z.min_r by lia.
Qed.

(** With the position omitted, row 0 of the table is never looked up when
    the maximum position is at least 1: every index lies in [[1, M]]. *)
Theorem embedder_default_positions_skip_row_zero self (T : nat) :
  1 <= maximum_position self ->
  Forall (Forall (fun i => 1 <= i <= maximum_position self))
         (data2 (tf_minimum (call_positions T None) (maximum_position self))).
Proof.
  intros HM. rewrite call_positions_none. simpl.
  constructor; [|constructor]. rewrite !Forall_map.
  apply Forall_forall. intros i Hi. apply in_seq in Hi. lia.
Qed.

End EmbedderRows.

(* ------------------------------------------------------------------ *)
(** ** [call] on an embedder *)

Section CallEmbedder.

Context {F : Type}.

Implicit Types (self : @PositionEmbedder F) (inputs : Tensor3 F)
  (table : Tensor2 F).

(** A given position at or beyond the maximum position gives the result of
    the maximum position itself, whatever the table and the reducer. *)
Theorem call_embedder_position_saturates self inputs (p : Z) :
  maximum_position self <= p ->
  call self inputs (Some p) = call self inputs (Some (maximum_position self)).
Proof.
  intros Hp. unfold call. simpl encode.
  unfold PositionEmbedder_encode, tf_minimum, call_positions, pylist1. simpl.
  now rewrite Z.min_r, Z.min_id by exact Hp.
Qed.

(** The row that [call] asks for at step [t + 1] of an incremental decoding
    is the row that the whole sequence gets at timestep [t]. *)
Theorem embedder_step_matches_sequence self table (T T' t : nat) (depth : Z) :
  0 <= maximum_position self ->
  embeddings self = Some table -> wf2 table ->
  fst (shape2 table) = Z.to_nat (maximum_position self + 1) ->
  (t < T)%nat ->
  exists full step row,
    PositionEmbedder_encode self (call_positions T None) depth = Ok full /\
    PositionEmbedder_encode self (call_positions T' (Some (Z.of_nat t + 1))) depth
    = Ok step /\
    row3 full 0 t = Some row /\ row3 step 0 0 = Some row.
Proof.
  intros HM Htable Hwf Hrows Ht.
  pose proof (embedder_encode_closed self table _ depth HM Htable Hwf Hrows
                (default_positions_nonneg T)) as Hfull.
  assert (Hpos : Forall (Forall (fun p => 0 <= p))
                   (data2 (call_positions T' (Some (Z.of_nat t + 1))))).
  { simpl. repeat constructor. lia. }
  pose proof (embedder_encode_closed self table _ depth HM Htable Hwf Hrows Hpos)
    as Hstep.
  do 2 eexists. exists (table_row table (maximum_position self) (Z.of_nat t + 1)).
  split; [exact Hfull|]. split; [exact Hstep|]. split; [|reflexivity].
  unfold row3. simpl. rewrite range_plus_one, !nth_error_map, nth_error_seq.
  destruct (Nat.ltb_spec t T); [|lia]. cbv [option_map]. do 2 f_equal. lia.
Qed.

(** After [build] for inputs of depth [D], with a maximum position that is
    not negative, [call] on an input of shape [[B, T, D]] hands to the
    reducer the input and an encoding of the input's own shape, for every
    number [T] of timesteps, also beyond the rows of the table: the batch
    entries all hold the table rows [min (t + 1) M]. With a position
    [p >= 0] given, the encoding has one timestep, the row [min p M]. *)
Theorem call_built_embedder_reaches_reducer self0 self
    (initializer : nat -> nat -> F) (input_shape : nat * nat * nat)
    inputs (B T D : nat) :
  PositionEmbedder_build self0 initializer input_shape = Ok self ->
  0 <= maximum_position self0 ->
  snd input_shape = D -> shape3 inputs = (B, T, D) ->
  exists table,
    embeddings self = Some table /\
    call self inputs None
    = pe_reducer self0
        [inputs;
         mkTensor3 (B, T, D)
           (repeat (map (table_row table (maximum_position self0))
                        (default_positions T)) B)] /\
    forall p, 0 <= p ->
      call self inputs (Some p)
      = pe_reducer self0
          [inputs;
           mkTensor3 (B, 1%nat, D)
             (repeat [table_row table (maximum_position self0) p] B)].
Proof.
  intros Hbuild HM HD Hshape.
  destruct (build_inv _ _ _ _ Hbuild) as (HMeq & _ & table & Htable & Hwf & Hts).
  assert (Hred : pe_reducer self = pe_reducer self0).
  { unfold PositionEmbedder_build in Hbuild.
    destruct (add_weight _ _ _); simpl in Hbuild; [|discriminate].
    now injection Hbuild as <-. }
  assert (Hrows : fst (shape2 table) = Z.to_nat (maximum_position self + 1))
    by now rewrite Hts.
  assert (Hdepth : snd (shape2 table) = D) by now rewrite Hts.
  rewrite <- HMeq in *.
  exists table. split; [exact Htable|].
  split; [|intros p Hp]; unfold call, dim0, dim1, dim2; rewrite Hshape;
    simpl fst; simpl snd; simpl encode; simpl reducer; rewrite Hred.
  - rewrite (embedder_encode_closed self table _ _ HM Htable Hwf Hrows
               (default_positions_nonneg T)).
    rewrite call_positions_none. simpl bind.
    unfold tf_tile_batch, dim0, dim1, dim2. simpl.
    now rewrite Hdepth, Nat.mul_1_r, concat_repeat_singleton.
  - assert (Hpos : Forall (Forall (fun q => 0 <= q))
                     (data2 (call_positions T (Some p)))).
    { simpl. repeat constructor. exact Hp. }
    rewrite (embedder_encode_closed self table _ _ HM Htable Hwf Hrows Hpos).
    simpl bind. unfold tf_tile_batch, dim0, dim1, dim2. simpl.
    now rewrite Hdepth, Nat.mul_1_r, concat_repeat_singleton.
Qed.

End CallEmbedder.

(* ------------------------------------------------------------------ *)
(** ** The outcomes of [SinusoidalPositionEncoder.encode] *)

(** On a non-empty batch [encode] has three outcomes, by the depth alone:
    an odd depth raises the [ValueError]; the depth 2 raises
    [ZeroDivisionError]; every other even depth, zero and negative ones
    too, returns a tensor of the shape of the positions with [depth]
    channels (none for a depth below zero). *)
Theorem sinusoidal_encode_three_outcomes {F : Type} {ops : FloatOps F}
    (self : @SinusoidalPositionEncoder F) (positions : Tensor2 Z) (depth : Z) :
  wf2 positions -> (1 <= fst (shape2 positions))%nat ->
  (Z.odd depth = true /\
   SinusoidalPositionEncoder_encode self positions depth = Raise (depth_error depth))
  \/ (depth = 2 /\
      SinusoidalPositionEncoder_encode self positions depth = Raise ZeroDivisionError)
  \/ (Z.even depth = true /\ depth <> 2 /\
      exists out,
        SinusoidalPositionEncoder_encode self positions depth = Ok out /\
        shape3 out
        = (fst (shape2 positions), snd (shape2 positions), Z.to_nat depth)).
Proof.
  intros Hwf HB. destruct (Z.odd depth) eqn:Hodd.
  - left. split; [reflexivity|].
    unfold SinusoidalPositionEncoder_encode. now rewrite Zmod_odd, Hodd.
  - right.
    assert (Heven : depth mod 2 = 0) by now rewrite Zmod_odd, Hodd.
    pose proof (even_double depth Heven) as Hd.
    destruct (Z.eq_dec depth 2) as [->|Hne].
    + left. split; [reflexivity|].
      unfold SinusoidalPositionEncoder_encode.
      change (2 mod 2 =? 0) with true. simpl negb. cbv iota.
      change (2 / 2 - 1) with 0. unfold py_div. simpl Z.eqb. cbv iota.
      reflexivity.
    + right. split; [now rewrite <- Z.negb_odd, Hodd|]. split; [exact Hne|].
      eexists. split.
      * apply sinusoidal_encode_closed; auto. lia.
      * simpl. do 2 f_equal. lia.
Qed.

(* ------------------------------------------------------------------ *)
(** ** Runs *)

Lemma example_positions_wf (row : list Z) : wf2 (pylist1 row).
Proof. split; simpl; [reflexivity|]. now repeat constructor. Qed.

Lemma sinusoidal_encode_three_outcomes_witness :
  exists out,
    SinusoidalPositionEncoder_encode example_sinusoidal (pylist1 [1; 2; 3]) 6 = Ok out /\
    shape3 out = (1%nat, 3%nat, 6%nat).
Proof.
  destruct (sinusoidal_encode_three_outcomes example_sinusoidal (pylist1 [1; 2; 3]) 6
              (example_positions_wf _)) as [[H _] | [[H _] | (_ & _ & H)]].
  - simpl. lia.
  - discriminate H.
  - discriminate H.
  - exact H.
Defined.



Lemma sinusoidal_channel_pair_on_unit_circle_witness :
  exists out s c,
    SinusoidalPositionEncoder_encode example_sinusoidal (pylist1 [5]) 6 = Ok out /\
    get3 out 0 0 2 = Some s /\ get3 out 0 0 5 = Some c /\ (s * s + c * c = 1)%R.
Proof.
  destruct (sinusoidal_channel_pair_on_unit_circle example_sinusoidal (pylist1 [5]) 6
              (example_positions_wf _)) as (out & Hout & Hch).
  - simpl. lia.
  - reflexivity.
  - vm_compute. discriminate.
  - destruct (Hch 0%nat 0%nat 5 2%nat eq_refl) as (s & c & Hs & Hc & Hsum).
    + vm_compute. lia.
    + exists out, s, c. auto.
Defined.

Lemma sinusoidal_position_zero_row_witness :
  exists out,
    SinusoidalPositionEncoder_encode example_sinusoidal (pylist1 [0; 3]) 4 = Ok out /\
    row3 out 0 0 = Some [0; 0; 1; 1]%R.
Proof.
  destruct (sinusoidal_position_zero_row example_sinusoidal (pylist1 [0; 3]) 4
              (example_positions_wf _)) as (out & Hout & Hzero).
  - simpl. lia.
  - reflexivity.
  - vm_compute. discriminate.
  - exists out. split; [exact Hout|]. exact (Hzero 0%nat 0%nat eq_refl).
Defined.

Lemma sinusoidal_first_and_last_timescale_witness :
  exists out,
    SinusoidalPositionEncoder_encode example_sinusoidal (pylist1 [7]) 8 = Ok out /\
    get3 out 0 0 0 = Some (sin 7) /\
    get3 out 0 0 3 = Some (sin (7 / 10000)) /\
    get3 out 0 0 7 = Some (cos (7 / 10000)).
Proof.
  destruct (sinusoidal_first_and_last_timescale example_sinusoidal (pylist1 [7]) 8
              (example_positions_wf _)) as (out & Hout & Hch).
  - simpl. lia.
  - reflexivity.
  - vm_compute. discriminate.
  - exists out. split; [exact Hout|].
    destruct (Hch 0%nat 0%nat 7 eq_refl) as (H0 & _ & H3 & H7). auto.
Defined.

Lemma sinusoidal_shift_is_rotation_witness :
  exists out sp cp sq cq,
    SinusoidalPositionEncoder_encode example_sinusoidal (pylist1 [2; 3; 5]) 4 = Ok out /\
    get3 out 0 0 1 = Some sp /\ get3 out 0 0 3 = Some cp /\
    get3 out 0 1 1 = Some sq /\ get3 out 0 1 3 = Some cq /\
    get3 out 0 2 1 = Some (sp * cq + cp * sq)%R /\
    get3 out 0 2 3 = Some (cp * cq - sp * sq)%R.
Proof.
  destruct (sinusoidal_shift_is_rotation example_sinusoidal (pylist1 [2; 3; 5]) 4
              (example_positions_wf _)) as (out & Hout & Hrot).
  - simpl. lia.
  - reflexivity.
  - vm_compute. discriminate.
  - destruct (Hrot 0%nat 0%nat 0%nat 1%nat 0%nat 2%nat 2 3 1%nat eq_refl eq_refl eq_refl)
      as (sp & cp & sq & cq & H).
    + vm_compute. lia.
    + exists out, sp, cp, sq, cq. split; [exact Hout | exact H].
Defined.

Lemma call_sinusoidal_odd_depth_witness :
  call example_sinusoidal (mkTensor3 (1%nat, 2%nat, 3%nat) [[[1; 2; 3]; [4; 5; 6]]]%R)
    (Some 1)
  = Raise (ValueError
      "SinusoidalPositionEncoder expects the depth to be divisble by 2 but got 3").
Proof.
  apply (call_sinusoidal_odd_depth example_sinusoidal
           (mkTensor3 (1%nat, 2%nat, 3%nat) [[[1; 2; 3]; [4; 5; 6]]]%R) (Some 1)).
  reflexivity.
Defined.

Lemma call_sinusoidal_reaches_reducer_witness :
  call example_sinusoidal example_inputs None
  = SumReducer
      [example_inputs;
       mkTensor3 (2%nat, 2%nat, 4%nat)
         [[encoding_row float32 4 1; encoding_row float32 4 2];
          [encoding_row float32 4 1; encoding_row float32 4 2]]].
Proof.
  destruct (call_sinusoidal_reaches_reducer example_sinusoidal example_inputs 2 2 4)
    as [Hnone _].
  - reflexivity.
  - reflexivity.
  - discriminate.
  - exact Hnone.
Defined.

Lemma call_one_timestep_is_position_one_witness :
  call example_embedder (mkTensor3 (1%nat, 1%nat, 2%nat) [[[1; 2]]]%R) None
  = call example_embedder (mkTensor3 (1%nat, 1%nat, 2%nat) [[[1; 2]]]%R) (Some 1).
Proof.
  apply (call_one_timestep_is_position_one example_embedder).
  reflexivity.
Defined.

Lemma example_table_wf :
  wf2 (mkTensor2 (3%nat, 2%nat) [[0; 1]; [10; 11]; [20; 21]]%R).
Proof. split; simpl; [reflexivity|]. repeat constructor. Qed.

Lemma embedder_encode_returns_table_rows_witness :
  exists out,
    PositionEmbedder_encode example_embedder (pylist1 [0; 1; 5]) 2 = Ok out /\
    shape3 out = (1%nat, 3%nat, 2%nat) /\
    row3 out 0 2 = Some [20; 21]%R.
Proof.
  destruct (embedder_encode_returns_table_rows example_embedder _ (pylist1 [0; 1; 5]) 2
              ltac:(simpl; lia) eq_refl example_table_wf eq_refl
              (example_positions_wf _))
    as (out & Hout & Hshape & _ & Hrows).
  - simpl. repeat constructor; lia.
  - exists out. split; [exact Hout|]. split; [exact Hshape|].
    destruct (Hrows 0%nat 2%nat 5 eq_refl) as (row & Hrow & Htab).
    rewrite Hrow. rewrite <- Htab. reflexivity.
Defined.

Lemma embedder_default_positions_saturate_witness :
  exists out,
    PositionEmbedder_encode example_embedder (call_positions 5 None) 2 = Ok out /\
    row3 out 0 0 = Some [10; 11]%R /\
    row3 out 0 1 = Some [20; 21]%R /\
    row3 out 0 4 = Some [20; 21]%R.
Proof.
  destruct (embedder_default_positions_saturate example_embedder _ 5 2
              ltac:(simpl; lia) eq_refl example_table_wf eq_refl)
    as (out & Hout & Hrow & Hsat).
  exists out. split; [exact Hout|]. split; [|split].
  - apply (Hrow 0%nat). lia.
  - apply (Hsat 1%nat); simpl; lia.
  - apply (Hsat 4%nat); simpl; lia.
Defined.

Lemma embedder_default_positions_skip_row_zero_witness :
  Forall (Forall (fun i => 1 <= i <= 2)) [[1; 2; 2; 2]].
Proof.
  apply (embedder_default_positions_skip_row_zero example_embedder 4).
  simpl. lia.
Defined.

Lemma call_embedder_position_saturates_witness :
  call example_embedder example_inputs_three_steps (Some 9)
  = call example_embedder example_inputs_three_steps (Some 2).
Proof.
  apply (call_embedder_position_saturates example_embedder example_inputs_three_steps 9).
  simpl. lia.
Defined.

Lemma embedder_step_matches_sequence_witness :
  exists full step row,
    PositionEmbedder_encode example_embedder (call_positions 4 None) 2 = Ok full /\
    PositionEmbedder_encode example_embedder (call_positions 1 (Some 3)) 2 = Ok step /\
    row3 full 0 2 = Some row /\ row3 step 0 0 = Some row.
Proof.
  apply (embedder_step_matches_sequence example_embedder _ 4 1 2 2
           ltac:(simpl; lia) eq_refl example_table_wf eq_refl).
  lia.
Defined.

Lemma call_built_embedder_reaches_reducer_witness :
  exists table,
    embeddings example_embedder = Some table /\
    call example_embedder example_inputs_three_steps None
    = SumReducer
        [example_inputs_three_steps;
         mkTensor3 (1%nat, 3%nat, 2%nat)
           [[table_row table 2 1; table_row table 2 2; table_row table 2 3]]].
Proof.
  destruct (call_built_embedder_reaches_reducer _ _ _ _ example_inputs_three_steps
              1 3 2 example_embedder_built)
    as (table & Htable & Hnone & _).
  - simpl. lia.
  - reflexivity.
  - reflexivity.
  - exists table. split; [exact Htable | exact Hnone].
Defined.
